(** * Avalonia Templates: namespace resolution and source rewriting

    A shallow embedding of the namespace engine of [src/extension.ts]
    (root location, namespace construction, marker-based region
    substitution, view-model placement and base-class injection) together
    with the properties its specification states about it.

    Strings are [string]s of 8-bit code units and are read as ASCII text;
    JavaScript indices are [Z] because [indexOf] answers [-1].  Where the
    length of a lowered text matters, the lowering is the host's (module
    [Unicode]): code units above 127 stand for text outside ASCII. *)

From stdpp Require Import gmap strings list fin_maps.
From Stdlib Require Import ZArith Ascii.

(* ===================================================================== *)
(** ** The JavaScript string primitives used by the extension            *)
(* ===================================================================== *)

Module JS.

(** [s.length] *)
Definition len (s : string) : Z := Z.of_nat (String.length s).

(** The first [n] code units of [s], and what follows them. *)
Fixpoint take (n : nat) (s : string) : string :=
  match n, s with
  | S n', String c s' => String c (take n' s')
  | _, _ => EmptyString
  end.

Fixpoint drop (n : nat) (s : string) : string :=
  match n, s with
  | S n', String _ s' => drop n' s'
  | _, _ => s
  end.

(** [s.startsWith(pat)] *)
Fixpoint startsWith (s pat : string) {struct pat} : bool :=
  match pat, s with
  | EmptyString, _ => true
  | String p pat', String c s' => if Ascii.eqb c p then startsWith s' pat' else false
  | String _ _, EmptyString => false
  end.

(** [s.endsWith(pat)] *)
Definition endsWith (s pat : string) : bool :=
  if (String.length pat <=? String.length s)%nat
  then String.eqb (drop (String.length s - String.length pat) s) pat
  else false.

(** Offset of the leftmost occurrence of [pat] in [s]. *)
Fixpoint search (pat s : string) : option nat :=
  if startsWith s pat then Some 0%nat
  else match s with
       | EmptyString => None
       | String _ s' => option_map S (search pat s')
       end.

(** Positions handed to [indexOf] and [substring] are clamped to
    [0 .. s.length]. *)
Definition clamp (s : string) (i : Z) : nat := Z.to_nat (Z.min (Z.max i 0) (len s)).

(** [s.indexOf(pat, position)] *)
Definition indexOf (s pat : string) (position : Z) : Z :=
  let k := clamp s position in
  match search pat (drop k s) with
  | Some j => Z.of_nat (k + j)
  | None => (-1)%Z
  end.

(** [s.includes(pat)] *)
Definition includes (s pat : string) : bool :=
  match search pat s with Some _ => true | None => false end.

(** [s.substring(start, end)]: both ends clamped, swapped when
    [start > end]. *)
Definition substring (s : string) (start end_ : Z) : string :=
  let a := clamp s start in
  let b := clamp s end_ in
  take (Nat.max a b - Nat.min a b) (drop (Nat.min a b) s).

(** [s.substring(start)] *)
Definition substringFrom (s : string) (start : Z) : string :=
  substring s start (len s).

(** [s.lastIndexOf(pat)]: the scan keeps the last offset that matches. *)
Fixpoint lastIndexOf_from (pat s : string) (i : Z) (found : Z) : Z :=
  let found' := if startsWith s pat then i else found in
  match s with
  | EmptyString => found'
  | String _ s' => lastIndexOf_from pat s' (i + 1)%Z found'
  end.

Definition lastIndexOf (s pat : string) : Z := lastIndexOf_from pat s 0%Z (-1)%Z.

(** [s.toLowerCase()] on ASCII text: [A-Z] are moved to [a-z]. *)
Definition toLowerChar (c : ascii) : ascii :=
  let n := nat_of_ascii c in
  if ((65 <=? n) && (n <=? 90))%nat then ascii_of_nat (n + 32) else c.

Fixpoint toLowerCase (s : string) : string :=
  match s with
  | EmptyString => EmptyString
  | String c s' => String (toLowerChar c) (toLowerCase s')
  end.

(** A string is truthy when it is not empty. *)
Definition truthy (s : string) : bool :=
  match s with EmptyString => false | _ => true end.

(** [s.split(sep)] for a string separator.  [skip] counts the code units
    of a separator that has been recognised and is being passed over;
    [cur] is the segment read so far. *)
Fixpoint split_go (sep : string) (skip : nat) (cur : string) (s : string) : list string :=
  match s with
  | EmptyString => [cur]
  | String c s' =>
      match skip with
      | S k => split_go sep k cur s'
      | O =>
          if startsWith s sep
          then cur :: split_go sep (String.length sep - 1) EmptyString s'
          else split_go sep 0 (cur +:+ String c EmptyString) s'
      end
  end.

Fixpoint chars (s : string) : list string :=
  match s with
  | EmptyString => []
  | String c s' => String c EmptyString :: chars s'
  end.

Definition split (s sep : string) : list string :=
  match sep with
  | EmptyString => chars s
  | _ => split_go sep 0 EmptyString s
  end.

(** [parts.join(sep)] *)
Fixpoint join (parts : list string) (sep : string) : string :=
  match parts with
  | [] => EmptyString
  | [p] => p
  | p :: rest => p +:+ sep +:+ join rest sep
  end.

(** [s.replace(pat, by)] with a string pattern: only the first occurrence
    is replaced.  ([by] is taken literally: the extension only ever
    replaces by the empty string.) *)
Definition replace (s pat by_ : string) : string :=
  match search pat s with
  | Some i => take i s +:+ by_ +:+ drop (i + String.length pat) s
  | None => s
  end.

End JS.


(* ===================================================================== *)
(** ** The host: exceptions, file system, path library, editor           *)
(* ===================================================================== *)

(** What a JavaScript [throw] carries here: an [Error] built by the
    extension with its message, or the failure of a file-system call on a
    path that does not exist. *)
Inductive exn :=
| Error (message : string)
| ENOENT (path : string).

(** A call returns, throws, or is cut off when the recursion allowance of
    the model is used up. *)
Inductive outcome (A : Type) :=
| Returns (a : A)
| Throws (e : exn)
| OutOfFuel.
Arguments Returns {A} a.
Arguments Throws {A} e.
Arguments OutOfFuel {A}.

Module fs.

(** A directory entry as [readdirSync(dir, { withFileTypes: true })]
    reports it. *)
Record Dirent := { name : string; isDirectory : bool }.

(** The part of the disk the extension looks at: the listing of every
    readable directory and the text of every file, both keyed by path. *)
Record World := {
  dirs : gmap string (list Dirent);
  files : gmap string string
}.

Definition readdirSync_withFileTypes (w : World) (dir : string) : outcome (list Dirent) :=
  match dirs w !! dir with
  | Some items => Returns items
  | None => Throws (ENOENT dir)
  end.

Definition readdirSync (w : World) (dir : string) : outcome (list string) :=
  match dirs w !! dir with
  | Some items => Returns (map name items)
  | None => Throws (ENOENT dir)
  end.

Definition readFileSync (w : World) (file : string) : outcome string :=
  match files w !! file with
  | Some content => Returns content
  | None => Throws (ENOENT file)
  end.

(** Every write of the extension follows a successful read of the same
    path, so a write is modelled as always succeeding. *)
Definition writeFileSync (file data : string) (w : World) : World :=
  {| dirs := dirs w; files := <[file := data]> (files w) |}.

Definition existsSync (w : World) (p : string) : bool :=
  match files w !! p, dirs w !! p with
  | None, None => false
  | _, _ => true
  end.

End fs.

Module path.

(** Node's [path] module, whose behaviour depends on the platform. *)
Class Platform := {
  sep : string;
  join : string -> string -> string;
  relative : string -> string -> string
}.

End path.

(** Stateful calls thread the disk. *)
Definition M (A : Type) : Type := fs.World -> outcome (A * fs.World).

Definition ret {A} (a : A) : M A := fun w => Returns (a, w).

Definition bind {A B} (m : M A) (k : A -> M B) : M B :=
  fun w =>
    match m w with
    | Returns (a, w') => k a w'
    | Throws e => Throws e
    | OutOfFuel => OutOfFuel
    end.

(** A read-only call seen as a stateful one. *)
Definition liftR {A} (f : fs.World -> outcome A) : M A :=
  fun w =>
    match f w with
    | Returns a => Returns (a, w)
    | Throws e => Throws e
    | OutOfFuel => OutOfFuel
    end.

Notation "x <- m ;; k" := (bind m (fun x => k))
  (at level 100, m at next level, right associativity).
Notation "m ;;; k" := (bind m (fun _ => k))
  (at level 100, right associativity).

Module vscode.

(** The editor: asked to open and show a document. *)
Class Editor := { showDocument : string -> M unit }.

End vscode.

Module Unicode.

(** [String.prototype.toLowerCase] on any text.  On ASCII text it is
    [JS.toLowerCase]; what it does to code units above 127, which stand
    for text outside ASCII, is laid down by the Unicode tables of the host
    and may change the number of code units. *)
Class Lowering := { toLowerCase : string -> string }.

Definition isAsciiUnit (c : ascii) : bool := (nat_of_ascii c <? 128)%nat.

Fixpoint isAsciiText (s : string) : bool :=
  match s with
  | EmptyString => true
  | String c s' => isAsciiUnit c && isAsciiText s'
  end.

(** A host is right on ASCII text when it lowers it as [JS.toLowerCase]
    does. *)
Definition agreesOnAscii (host : Lowering) : Prop :=
  forall s, isAsciiText s = true -> @toLowerCase host s = JS.toLowerCase s.

(** A host that knows ASCII only. *)
Definition asciiOnly : Lowering := {| toLowerCase := JS.toLowerCase |}.

(** A host in which code unit 221 stands for the capital I with a dot
    above (U+0130).  Its lowering takes two code units: [i] and the
    combining dot above (U+0307), for which code unit 135 stands. *)
Definition dottedCapitalI : ascii := ascii_of_nat 221.
Definition combiningDot : ascii := ascii_of_nat 135.

Definition lowerUnit (c : ascii) : string :=
  if Ascii.eqb c dottedCapitalI
  then String (ascii_of_nat 105) (String combiningDot EmptyString)
  else String (JS.toLowerChar c) EmptyString.

Fixpoint lowerUnits (s : string) : string :=
  match s with
  | EmptyString => EmptyString
  | String c s' => lowerUnit c +:+ lowerUnits s'
  end.

Definition withDottedI : Lowering := {| toLowerCase := lowerUnits |}.

End Unicode.

(* ===================================================================== *)
(** ** The extension                                                     *)
(* ===================================================================== *)

(** Modelled from the spec: the enum [TemplateType] of
    [enums/template-type] is not among the sources.  The spec speaks of the
    component types and singles out one of them for its markup marker; the
    five members below are the ones [extension.ts] names, taken to be
    pairwise distinct. *)
Inductive TemplateType :=
| Window
| UserControl
| TemplatedControl
| Styles
| ResourceDictionary.

Global Instance TemplateType_eq_dec : EqDecision TemplateType.
Proof. solve_decision. Defined.

Record TemplateConfig := {
  typeName : string;
  dotnetTemplate : string;
  supportsViewModel : bool;
  requiresNamespaceUpdate : bool
}.

Module ChangeNamespaceArgs.
Record t := {
  templateType : TemplateType;
  createPath : string;
  projectPath : string;
  fileName : string;
  frontendModifiedStartContent : string;
  frontendModifiedEndContent : string;
  backendModifiedStartContent : string;
  backendModifiedEndContent : string
}.
End ChangeNamespaceArgs.

Module ChangeFileContentArgs.
Record t := {
  filePath : string;
  startContent : string;
  endContent : string;
  templateType : TemplateType;
  xamlNameSpace : string;
  csharpNameSpace : string;
  openFile : bool;
  isCSharpFile : bool
}.
End ChangeFileContentArgs.

(** What [findNameSpaces] returns. *)
Record NameSpaces := {
  xamlNameSpace : string;
  csharpNameSpace : string
}.

(** The double quote and the line break of the generated sources. *)
Definition dquote : string := String (ascii_of_nat 34) EmptyString.
Definition CRLF : string := String (ascii_of_nat 13) (String (ascii_of_nat 10) EmptyString).

Definition getTemplateConfiguration (templateType : TemplateType) : TemplateConfig :=
  match templateType with
  | Window =>
      {| typeName := "Window"; dotnetTemplate := "avalonia.window";
         supportsViewModel := true; requiresNamespaceUpdate := true |}
  | UserControl =>
      {| typeName := "UserControl"; dotnetTemplate := "avalonia.usercontrol";
         supportsViewModel := true; requiresNamespaceUpdate := true |}
  | TemplatedControl =>
      {| typeName := "TemplatedControl"; dotnetTemplate := "avalonia.templatedcontrol";
         supportsViewModel := false; requiresNamespaceUpdate := true |}
  | Styles =>
      {| typeName := "Styles"; dotnetTemplate := "avalonia.styles";
         supportsViewModel := false; requiresNamespaceUpdate := false |}
  | ResourceDictionary =>
      {| typeName := "ResourceDictionary"; dotnetTemplate := "avalonia.resource";
         supportsViewModel := false; requiresNamespaceUpdate := false |}
  end.

Section Extension.

Context `{path.Platform} `{vscode.Editor} `{Unicode.Lowering}.

(** *** Root location *)

Definition isMarker (file : string) : bool :=
  JS.endsWith file ".sln" || JS.endsWith file ".csproj".

(** A directory that cannot be listed contains no marker. *)
Definition containsSolutionOrProject (w : fs.World) (dir : string) : bool :=
  match fs.readdirSync w dir with
  | Returns files => existsb isMarker files
  | _ => false
  end.

(** The loop over the listing returns at the first hit; a listing that
    cannot be read ends the call with [null].  [fuel] bounds the depth of
    the recursion. *)
Fixpoint findSolutionOrProjectRecursive (w : fs.World) (fuel : nat) (dir : string)
  : outcome (option string) :=
  match fuel with
  | O => OutOfFuel
  | S fuel' =>
      match fs.readdirSync_withFileTypes w dir with
      | Returns items =>
          (fix loop (items : list fs.Dirent) : outcome (option string) :=
             match items with
             | [] => Returns None
             | item :: rest =>
                 if fs.isDirectory item then
                   let subDir := path.join dir (fs.name item) in
                   if containsSolutionOrProject w subDir then Returns (Some subDir)
                   else
                     match findSolutionOrProjectRecursive w fuel' subDir with
                     | Returns (Some result) =>
                         if JS.truthy result then Returns (Some result) else loop rest
                     | Returns None => loop rest
                     | Throws e => Returns None
                     | OutOfFuel => OutOfFuel
                     end
                 else loop rest
             end) items
      | _ => Returns None
      end
  end.

Definition findSolutionOrProjectDirectory (w : fs.World) (fuel : nat) (startDir : string)
  : outcome (option string) :=
  if containsSolutionOrProject w startDir then Returns (Some startDir)
  else findSolutionOrProjectRecursive w fuel startDir.

(** *** Namespace construction *)

Definition analyzeSolutionDirectory (w : fs.World) (solutionDir : string)
  : outcome (bool * string) :=
  match fs.readdirSync w solutionDir with
  | Returns files =>
      let isSolutionDir := existsb (fun file => JS.endsWith file ".sln") files in
      if negb isSolutionDir then
        match fs.readdirSync w solutionDir with
        | Returns files' =>
            match List.find (fun file => JS.endsWith file ".csproj") files' with
            | Some csprojFile =>
                if JS.truthy csprojFile
                then Returns (isSolutionDir, JS.replace csprojFile ".csproj" EmptyString)
                else Returns (isSolutionDir, EmptyString)
            | None => Returns (isSolutionDir, EmptyString)
            end
        | Throws e => Throws e
        | OutOfFuel => OutOfFuel
        end
      else Returns (isSolutionDir, EmptyString)
  | Throws e => Throws e
  | OutOfFuel => OutOfFuel
  end.

Definition constructNamespace
    (createPath solutionDir fileName : string) (isSolutionDir : bool) (projectName : string)
  : string :=
  let relativePath := path.relative solutionDir createPath in
  let namespace :=
    JS.join (List.filter (fun part => JS.truthy part) (JS.split relativePath path.sep)) "." in
  let namespace :=
    if JS.truthy namespace then namespace +:+ "." +:+ fileName else fileName in
  if negb isSolutionDir && JS.truthy projectName
  then projectName +:+ "." +:+ namespace
  else namespace.

Definition findNameSpaces (w : fs.World) (fuel : nat) (createPath projectPath fileName : string)
  : outcome NameSpaces :=
  match findSolutionOrProjectDirectory w fuel projectPath with
  | Returns found =>
      match found with
      | Some solutionDir =>
          if JS.truthy solutionDir then
            match analyzeSolutionDirectory w solutionDir with
            | Returns (isSolutionDir, projectName) =>
                let namespace :=
                  constructNamespace createPath solutionDir fileName isSolutionDir projectName in
                if JS.truthy namespace then
                  Returns
                    {| xamlNameSpace := namespace;
                       csharpNameSpace :=
                         if JS.includes namespace "."
                         then JS.substring namespace 0 (JS.lastIndexOf namespace ".")
                         else namespace |}
                else Throws (Error "Namespace not found.")
            | Throws e => Throws e
            | OutOfFuel => OutOfFuel
            end
          else Throws (Error "Solution or project file not found in workspace.")
      | None => Throws (Error "Solution or project file not found in workspace.")
      end
  | Throws e => Throws e
  | OutOfFuel => OutOfFuel
  end.

(** *** Region substitution *)

Definition openTextDocument (filePath : string) : M unit :=
  vscode.showDocument filePath.

Definition namespaceToUse (args : ChangeFileContentArgs.t) : string :=
  if ChangeFileContentArgs.isCSharpFile args
     || bool_decide (ChangeFileContentArgs.templateType args = TemplatedControl)
  then ChangeFileContentArgs.csharpNameSpace args
  else ChangeFileContentArgs.xamlNameSpace args.

(** The text [changeFileContent] writes back, from the text it read. *)
Definition modifiedData (args : ChangeFileContentArgs.t) (fileContent : string) : string :=
  let modifiedStartIndex :=
    (JS.indexOf fileContent (ChangeFileContentArgs.startContent args) 0
     + JS.len (ChangeFileContentArgs.startContent args))%Z in
  let modifiedEndIndex :=
    JS.indexOf fileContent (ChangeFileContentArgs.endContent args) modifiedStartIndex in
  JS.substring fileContent 0 modifiedStartIndex
  +:+ namespaceToUse args
  +:+ JS.substringFrom fileContent modifiedEndIndex.

Definition changeFileContent (args : ChangeFileContentArgs.t) : M unit :=
  fileContent <- liftR (fun w => fs.readFileSync w (ChangeFileContentArgs.filePath args));;
  (fun w =>
     Returns (tt, fs.writeFileSync (ChangeFileContentArgs.filePath args)
                                   (modifiedData args fileContent) w));;;
  if ChangeFileContentArgs.openFile args
  then openTextDocument (ChangeFileContentArgs.filePath args)
  else ret tt.

(** The two calls [changeNamespaces] makes. *)
Definition frontendCall (args : ChangeNamespaceArgs.t) (namespaces : NameSpaces)
  : ChangeFileContentArgs.t :=
  {| ChangeFileContentArgs.filePath :=
       path.join (ChangeNamespaceArgs.createPath args)
                 (ChangeNamespaceArgs.fileName args +:+ ".axaml");
     ChangeFileContentArgs.startContent := ChangeNamespaceArgs.frontendModifiedStartContent args;
     ChangeFileContentArgs.endContent := ChangeNamespaceArgs.frontendModifiedEndContent args;
     ChangeFileContentArgs.templateType := ChangeNamespaceArgs.templateType args;
     ChangeFileContentArgs.xamlNameSpace := xamlNameSpace namespaces;
     ChangeFileContentArgs.csharpNameSpace := csharpNameSpace namespaces;
     ChangeFileContentArgs.openFile := true;
     ChangeFileContentArgs.isCSharpFile := false |}.

Definition backendCall (args : ChangeNamespaceArgs.t) (namespaces : NameSpaces)
  : ChangeFileContentArgs.t :=
  {| ChangeFileContentArgs.filePath :=
       path.join (ChangeNamespaceArgs.createPath args)
                 (ChangeNamespaceArgs.fileName args +:+ ".axaml.cs");
     ChangeFileContentArgs.startContent := ChangeNamespaceArgs.backendModifiedStartContent args;
     ChangeFileContentArgs.endContent := ChangeNamespaceArgs.backendModifiedEndContent args;
     ChangeFileContentArgs.templateType := ChangeNamespaceArgs.templateType args;
     ChangeFileContentArgs.xamlNameSpace := xamlNameSpace namespaces;
     ChangeFileContentArgs.csharpNameSpace := csharpNameSpace namespaces;
     ChangeFileContentArgs.openFile := false;
     ChangeFileContentArgs.isCSharpFile := true |}.

Definition changeNamespaces (fuel : nat) (args : ChangeNamespaceArgs.t) : M unit :=
  namespaces <-
    liftR (fun w => findNameSpaces w fuel (ChangeNamespaceArgs.createPath args)
                      (ChangeNamespaceArgs.projectPath args)
                      (ChangeNamespaceArgs.fileName args));;
  changeFileContent (frontendCall args namespaces);;;
  changeFileContent (backendCall args namespaces).

(** The argument record [updateTemplateNamespaces] builds. *)
Definition namespaceArgs (templateType : TemplateType) (createPath projectPath fileName : string)
  : ChangeNamespaceArgs.t :=
  {| ChangeNamespaceArgs.templateType := templateType;
     ChangeNamespaceArgs.createPath := createPath;
     ChangeNamespaceArgs.projectPath := projectPath;
     ChangeNamespaceArgs.fileName := fileName;
     ChangeNamespaceArgs.frontendModifiedStartContent :=
       if bool_decide (templateType = TemplatedControl)
       then "xmlns:controls=" +:+ dquote +:+ "using:"
       else "x:Class=" +:+ dquote;
     ChangeNamespaceArgs.frontendModifiedEndContent :=
       if bool_decide (templateType = TemplatedControl) then dquote +:+ ">" else dquote;
     ChangeNamespaceArgs.backendModifiedStartContent := "namespace ";
     ChangeNamespaceArgs.backendModifiedEndContent := ";" |}.

Definition updateTemplateNamespaces
    (fuel : nat) (templateType : TemplateType) (createPath projectPath fileName : string)
  : M unit :=
  changeNamespaces fuel (namespaceArgs templateType createPath projectPath fileName).

(** *** Companion view-model: where it goes and what it is called *)

(** The final values of [directoryPath] and [viewModelsPath] in
    [createViewModel].  The index found in the lowered path is used in the
    path itself, so the length of the lowered path matters here: the
    lowering is the host's. *)
Definition viewModelLocation (viewPath : string) : string * string :=
  let directoryPath := viewPath in
  let viewModelsPath := viewPath in
  if JS.includes (Unicode.toLowerCase directoryPath) "\views" then
    let viewsIndex := JS.indexOf (Unicode.toLowerCase directoryPath) "\views" 0 in
    let basePath := JS.substring directoryPath 0 viewsIndex in
    let viewModelsPath := path.join basePath "ViewModels" in
    let viewsSubPath := JS.substringFrom directoryPath (viewsIndex + JS.len "\views")%Z in
    let directoryPath := path.join viewModelsPath viewsSubPath in
    (directoryPath, viewModelsPath)
  else (directoryPath, viewModelsPath).

(** The [fileName] of [createViewModel]. *)
Definition viewModelFileName (viewName : string) : string :=
  if JS.endsWith (JS.toLowerCase viewName) "view"
  then viewName +:+ "Model"
  else viewName +:+ "ViewModel".

(** *** Base-class injection *)

(** White space as the regular expression class [\s] sees it in ASCII. *)
Definition isSpace (c : ascii) : bool :=
  let n := nat_of_ascii c in
  ((9 <=? n) && (n <=? 13) || (n =? 32))%nat.

(** The longest prefix whose code units satisfy [p], and the rest. *)
Fixpoint span (p : ascii -> bool) (s : string) : string * string :=
  match s with
  | EmptyString => (EmptyString, EmptyString)
  | String c s' =>
      if p c then let '(a, b) := span p s' in (String c a, b)
      else (EmptyString, s)
  end.

(** [/namespace\s+([^\s;]+)/] tried at the head of [s].  The greedy
    [\s+] takes the whole run of white space; giving some of it back
    cannot help, since the capture must start on a code unit that is not
    white space. *)
Definition namespaceMatchHere (s : string) : option string :=
  if JS.startsWith s "namespace" then
    let '(spaces, after) := span isSpace (JS.drop 9 s) in
    let '(captured, _) := span (fun c => negb (isSpace c || Ascii.eqb c ";")) after in
    if JS.truthy spaces && JS.truthy captured then Some captured else None
  else None.

(** [content.match(...)]: the leftmost position where the expression
    matches; the result is its capture group. *)
Fixpoint namespaceMatch (content : string) : option string :=
  match namespaceMatchHere content with
  | Some captured => Some captured
  | None =>
      match content with
      | EmptyString => None
      | String _ content' => namespaceMatch content'
      end
  end.

Definition findViewModelBaseNamespace (w : fs.World) (viewModelBasePath : string)
  : option string :=
  match fs.readFileSync w viewModelBasePath with
  | Returns content => namespaceMatch content
  | _ => None
  end.

Definition findViewModelNamespace (w : fs.World) (viewModelFilePath : string)
  : option string :=
  match fs.readFileSync w viewModelFilePath with
  | Returns content => namespaceMatch content
  | _ => None
  end.

(** [fileContent] after the optional insertion of the [using] line. *)
Definition withUsing (viewModelBaseNamespace viewModelNamespace : option string)
    (fileContent : string) : string :=
  match viewModelBaseNamespace, viewModelNamespace with
  | Some base, Some own =>
      if JS.truthy base && JS.truthy own && negb (String.eqb base own) then
        let usingStatement := "using " +:+ base +:+ ";" +:+ CRLF +:+ CRLF in
        let namespaceIndex := JS.indexOf fileContent "namespace " 0 in
        if negb (namespaceIndex =? -1)%Z then
          JS.substring fileContent 0 namespaceIndex
          +:+ usingStatement
          +:+ JS.substringFrom fileContent namespaceIndex
        else fileContent
      else fileContent
  | _, _ => fileContent
  end.

(** The text written back once the inheritance clause is spliced in. *)
Definition withInheritance (viewModelFileName : string) (fileContent : string) : string :=
  let startIndex := JS.indexOf fileContent (" class " +:+ viewModelFileName) 0 in
  let endIndex := JS.indexOf fileContent "{" startIndex in
  JS.substring fileContent 0 startIndex
  +:+ (" class " +:+ viewModelFileName +:+ " : ViewModelBase" +:+ CRLF)
  +:+ JS.substringFrom fileContent endIndex.

Definition inheritFromViewModelBaseIfExists
    (viewModelFilePath viewModelFileName viewModelsPath : string) : M unit :=
  fun w =>
    let viewModelBasePath := path.join viewModelsPath "ViewModelBase.cs" in
    if negb (fs.existsSync w viewModelBasePath) then Returns (tt, w)
    else
      let viewModelBaseNamespace := findViewModelBaseNamespace w viewModelBasePath in
      let viewModelNamespace := findViewModelNamespace w viewModelFilePath in
      match fs.readFileSync w viewModelFilePath with
      | Returns fileContent =>
          let fileContent := withUsing viewModelBaseNamespace viewModelNamespace fileContent in
          let modifiedData := withInheritance viewModelFileName fileContent in
          Returns (tt, fs.writeFileSync viewModelFilePath modifiedData w)
      | Throws e => Throws e
      | OutOfFuel => OutOfFuel
      end.

End Extension.

(* ===================================================================== *)
(** ** A concrete host for examples                                      *)
(* ===================================================================== *)

Module Posix.

(** [path.join] and [path.relative] of a POSIX host on the paths the
    examples use: normalised paths, and for [relative] a target at or
    below the root. *)
Definition join (a b : string) : string :=
  match a, b with
  | EmptyString, EmptyString => "."
  | EmptyString, _ => b
  | _, EmptyString => a
  | _, _ => a +:+ "/" +:+ b
  end.

Definition relative (from to : string) : string :=
  if String.eqb from to then EmptyString
  else if JS.startsWith to (from +:+ "/") then JS.drop (String.length from + 1) to
  else to.

#[export] Instance platform : path.Platform :=
  {| path.sep := "/"; path.join := join; path.relative := relative |}.

(** An editor that shows whatever it is asked to show. *)
#[export] Instance editor : vscode.Editor :=
  {| vscode.showDocument := fun _ => ret tt |}.

End Posix.

Module Win32.

(** [path.join] of a Windows host on the paths the examples use: the two
    parts are put together with a backslash and runs of backslashes are
    reduced to one. *)
Fixpoint squeeze (s : string) : string :=
  match s with
  | String c (String d _ as s') =>
      if Ascii.eqb c (ascii_of_nat 92) && Ascii.eqb d (ascii_of_nat 92)
      then squeeze s'
      else String c (squeeze s')
  | _ => s
  end.

Definition join (a b : string) : string :=
  match a, b with
  | EmptyString, EmptyString => "."
  | EmptyString, _ => squeeze b
  | _, EmptyString => squeeze a
  | _, _ => squeeze (a +:+ "\" +:+ b)
  end.

Definition relative (from to : string) : string :=
  if String.eqb from to then EmptyString
  else if JS.startsWith to (from +:+ "\") then JS.drop (String.length from + 1) to
  else to.

Definition platform : path.Platform :=
  {| path.sep := "\"; path.join := join; path.relative := relative |}.

End Win32.

(* ===================================================================== *)
(** ** Vocabulary of the specification                                   *)
(* ===================================================================== *)

(** [pat] occurs in [s] at offset [i]. *)
Definition occurs_at (pat s : string) (i : nat) : Prop :=
  exists pre post, s = pre +:+ pat +:+ post /\ String.length pre = i.

(** [pat] occurs somewhere in [s]. *)
Definition occurs (pat s : string) : Prop :=
  exists pre post, s = pre +:+ pat +:+ post.

(** [s = pre +:+ pat +:+ post] cuts [s] at the first occurrence of [pat]. *)
Definition first_occurrence (pat s pre post : string) : Prop :=
  s = pre +:+ pat +:+ post /\ forall i, occurs_at pat s i -> String.length pre <= i.

(** A directory tree: a directory either cannot be listed or lists its
    entries in order, each a non-directory entry or a directory in turn. *)
Inductive dir :=
| Unreadable
| Listing (entries : items)
with items :=
| NoMore
| AFile (name : string) (rest : items)
| ADir (name : string) (content : dir) (rest : items).

Scheme dir_mut := Induction for dir Sort Prop
  with items_mut := Induction for items Sort Prop.
Combined Scheme dir_items_ind from dir_mut, items_mut.

(** The listing [readdirSync] gives for the entries. *)
Fixpoint dirents (es : items) : list fs.Dirent :=
  match es with
  | NoMore => []
  | AFile n rest => {| fs.name := n; fs.isDirectory := false |} :: dirents rest
  | ADir n _ rest => {| fs.name := n; fs.isDirectory := true |} :: dirents rest
  end.

(** The listing of the directory holds an entry whose name ends in the
    solution or the project suffix.  (As in the code, the entry may be of
    any kind.) *)
Definition hasMarker (d : dir) : bool :=
  match d with
  | Unreadable => false
  | Listing es => existsb isMarker (map fs.name (dirents es))
  end.

Section Trees.

Context `{path.Platform}.

(** The disk [w] holds the tree [d] at path [p]. *)
Fixpoint on_disk (w : fs.World) (p : string) (d : dir) {struct d} : Prop :=
  match d with
  | Unreadable => fs.dirs w !! p = None
  | Listing es => fs.dirs w !! p = Some (dirents es) /\ on_disk_items w p es
  end
with on_disk_items (w : fs.World) (p : string) (es : items) {struct es} : Prop :=
  match es with
  | NoMore => True
  | AFile _ rest => on_disk_items w p rest
  | ADir n c rest => on_disk w (path.join p n) c /\ on_disk_items w p rest
  end.

(** The directories strictly below [p], with their paths, in depth-first
    pre-order: a directory comes before what it contains, and both come
    before its later siblings. *)
Fixpoint preorder (p : string) (d : dir) {struct d} : list (string * dir) :=
  match d with
  | Unreadable => []
  | Listing es => preorder_items p es
  end
with preorder_items (p : string) (es : items) {struct es} : list (string * dir) :=
  match es with
  | NoMore => []
  | AFile _ rest => preorder_items p rest
  | ADir n c rest =>
      (path.join p n, c) :: preorder (path.join p n) c ++ preorder_items p rest
  end.

(** The first directory of a traversal whose listing holds a marker. *)
Definition firstMarked (l : list (string * dir)) : option string :=
  fst <$> List.find (fun pd => hasMarker pd.2) l.

End Trees.

(** Nesting depth, counting the directory itself. *)
Fixpoint height (d : dir) : nat :=
  match d with
  | Unreadable => 1
  | Listing es => S (height_items es)
  end
with height_items (es : items) : nat :=
  match es with
  | NoMore => 0
  | AFile _ rest => height_items rest
  | ADir _ c rest => Nat.max (height c) (height_items rest)
  end.

(** A call signals failure by throwing rather than by the value it returns. *)
Definition signalsError {A} (o : outcome A) : Prop := exists e, o = Throws e.

(** Two code units are the same letter up to case. *)
Definition isUpper (c : ascii) : Prop := 65 <= nat_of_ascii c <= 90.

Definition sameLetter (c d : ascii) : Prop :=
  c = d
  \/ (isUpper c /\ nat_of_ascii d = nat_of_ascii c + 32)
  \/ (isUpper d /\ nat_of_ascii c = nat_of_ascii d + 32).

(** Two strings are equal up to the case of their letters. *)
Fixpoint eq_ci (a b : string) : Prop :=
  match a, b with
  | EmptyString, EmptyString => True
  | String c a', String d b' => sameLetter c d /\ eq_ci a' b'
  | _, _ => False
  end.

(** [s] ends with [suffix] up to case. *)
Definition endsWith_ci (s suffix : string) : Prop :=
  exists front back, s = front +:+ back /\ eq_ci back suffix.

(** [pat] occurs in [s] at offset [i] up to case. *)
Definition occurs_ci_at (pat s : string) (i : nat) : Prop :=
  exists pre found post,
    s = pre +:+ found +:+ post /\ eq_ci found pat /\ String.length pre = i.

(** The non-empty segments of a relative path. *)
Definition segments `{path.Platform} (relativePath : string) : list string :=
  List.filter (fun part => negb (String.eqb part EmptyString))
              (JS.split relativePath path.sep).

(* ===================================================================== *)
(** ** Sample disks                                                      *)
(* ===================================================================== *)

Module Demo.

Definition file (n : string) : fs.Dirent := {| fs.name := n; fs.isDirectory := false |}.
Definition folder (n : string) : fs.Dirent := {| fs.name := n; fs.isDirectory := true |}.

(** A workspace whose project sits two levels down. *)
Definition workspace : fs.World :=
  {| fs.dirs := list_to_map
       [ ("/ws", [file "README.md"; folder "docs"; folder "src"]);
         ("/ws/docs", [file "a.md"]);
         ("/ws/src", [folder "App"]);
         ("/ws/src/App", [file "App.csproj"; folder "Views"]);
         ("/ws/src/App/Views", []) ];
     fs.files := list_to_map
       [ ("/ws/src/App/Views/Foo.axaml.cs",
          "using X;" +:+ CRLF +:+ "namespace Old.Ns;" +:+ CRLF +:+ "public class Foo {}") ] |}.

Definition workspaceTree : dir :=
  Listing
    (AFile "README.md"
    (ADir "docs" (Listing (AFile "a.md" NoMore))
    (ADir "src"
       (Listing
          (ADir "App"
             (Listing (AFile "App.csproj" (ADir "Views" (Listing NoMore) NoMore)))
             NoMore))
    NoMore))).

(** A workspace without any solution or project file. *)
Definition bare : fs.World :=
  {| fs.dirs := list_to_map
       [ ("/ws", [file "notes.txt"; folder "img"]);
         ("/ws/img", [file "logo.png"]) ];
     fs.files := ∅ |}.

Definition bareTree : dir :=
  Listing (AFile "notes.txt" (ADir "img" (Listing (AFile "logo.png" NoMore)) NoMore)).

(** The code-behind call of [changeNamespaces] on [Foo.axaml.cs]. *)
Definition codeBehind (filePath : string) : ChangeFileContentArgs.t :=
  {| ChangeFileContentArgs.filePath := filePath;
     ChangeFileContentArgs.startContent := "namespace ";
     ChangeFileContentArgs.endContent := ";";
     ChangeFileContentArgs.templateType := Window;
     ChangeFileContentArgs.xamlNameSpace := "App.Views.Foo";
     ChangeFileContentArgs.csharpNameSpace := "App.Views";
     ChangeFileContentArgs.openFile := false;
     ChangeFileContentArgs.isCSharpFile := true |}.

(** A generated file whose namespace declaration lacks its semicolon. *)
Definition noEndMarker : fs.World :=
  {| fs.dirs := ∅;
     fs.files := {[ "/p/Foo.axaml.cs" := "namespace Old.Ns" +:+ CRLF +:+ "class Foo {}" ]} |}.

(** A generated file without a namespace declaration. *)
Definition noStartMarker : fs.World :=
  {| fs.dirs := ∅;
     fs.files := {[ "/p/Foo.axaml.cs" := "using System;" +:+ CRLF +:+ "class Foo {}" ]} |}.

(** A view-model generated under the name [Foo-BarViewModel]: the class
    in it is called [Foo_BarViewModel], since a dash cannot be part of an
    identifier.  A base class sits next to it. *)
Definition renamedClassText : string :=
  "namespace App.ViewModels;" +:+ CRLF +:+ CRLF
  +:+ "public class Foo_BarViewModel" +:+ CRLF +:+ "{" +:+ CRLF +:+ "}" +:+ CRLF.

Definition renamedClass : fs.World :=
  {| fs.dirs := ∅;
     fs.files := list_to_map
       [ ("/p/ViewModels/ViewModelBase.cs",
          "namespace App.ViewModels;" +:+ CRLF +:+ CRLF
          +:+ "public class ViewModelBase" +:+ CRLF +:+ "{" +:+ CRLF +:+ "}" +:+ CRLF);
         ("/p/ViewModels/Foo-BarViewModel.cs", renamedClassText) ] |}.

(** The namespaces of a control [Dial] in the folder [Controls]. *)
Definition dial : NameSpaces :=
  {| xamlNameSpace := "App.Controls.Dial"; csharpNameSpace := "App.Controls" |}.

End Demo.

(* ===================================================================== *)
(** ** Reporting a failed creation                                       *)
(* ===================================================================== *)

(** The [errorMessage] of [handleCreationError].  [error] is the message of
    what was caught, or [None] when what was caught is not an [Error]. *)
Definition creationErrorMessage (error : option string) : string :=
  match error with
  | Some message =>
      if JS.includes message "Solution or project file not found" then
        "No solution or project file found in workspace. Please open an Avalonia project."
      else if JS.includes message "Namespace not found" then
        "Could not determine namespace. Please make sure you're working in a valid project structure."
      else message
  | None => "An error occurred while trying to create your files"
  end.

(** [handleCreationError] shows the message and throws it anew: it never
    returns. *)
Definition handleCreationError {A} (error : option string) : M A :=
  fun _ => Throws (Error (creationErrorMessage error)).

(* ===================================================================== *)
(** ** The logger                                                        *)
(* ===================================================================== *)

Module AppLogLevel.

(** [enum AppLogLevel], its numeric values and its reverse mapping
    [AppLogLevel[level]]. *)
Inductive t := DEBUG | INFO | WARN | ERROR | NONE.

Definition value (level : t) : Z :=
  match level with
  | DEBUG => 0
  | INFO => 1
  | WARN => 2
  | ERROR => 3
  | NONE => 4
  end%Z.

Definition nameOf (level : t) : string :=
  match level with
  | DEBUG => "DEBUG"
  | INFO => "INFO"
  | WARN => "WARN"
  | ERROR => "ERROR"
  | NONE => "NONE"
  end.

End AppLogLevel.

Module Logger.

(** The logger: the lines appended to its output channel so far, oldest
    first, and its level. *)
Record t := {
  outputChannel : list string;
  logLevel : AppLogLevel.t
}.

(** [outputChannel.appendLine(line)] *)
Definition appendLine (line : string) (self : t) : t :=
  {| outputChannel := outputChannel self ++ [line]; logLevel := logLevel self |}.

(** [configured] is the setting [avaloniaTemplates.logLevel] when it is
    set; [config.get] falls back on [info]. *)
Definition getLogLevelFromConfig (configured : option string) : AppLogLevel.t :=
  let level := match configured with Some v => v | None => "info" end in
  let lowered := JS.toLowerCase level in
  if String.eqb lowered "debug" then AppLogLevel.DEBUG
  else if String.eqb lowered "info" then AppLogLevel.INFO
  else if String.eqb lowered "warn" then AppLogLevel.WARN
  else if String.eqb lowered "error" then AppLogLevel.ERROR
  else if String.eqb lowered "none" then AppLogLevel.NONE
  else AppLogLevel.INFO.

(** [new Logger()] *)
Definition create (configured : option string) : t :=
  {| outputChannel := []; logLevel := getLogLevelFromConfig configured |}.

Section Methods.

(** The values handed over as [...args] and [JSON.stringify] on them.
    [timestamp] is [new Date().toISOString()] at the time of the call. *)
Context {any : Type} (stringify : any -> string).

Definition log (timestamp level message : string) (args : list any) (self : t) : t :=
  let formattedMessage :=
    if (0 <? length args)%nat
    then timestamp +:+ " [" +:+ level +:+ "] " +:+ message +:+ " "
         +:+ JS.join (map stringify args) " "
    else timestamp +:+ " [" +:+ level +:+ "] " +:+ message in
  appendLine formattedMessage self.

Definition debug (timestamp message : string) (args : list any) (self : t) : t :=
  if (AppLogLevel.value (logLevel self) <=? AppLogLevel.value AppLogLevel.DEBUG)%Z
  then log timestamp "DEBUG" message args self
  else self.

Definition info (timestamp message : string) (args : list any) (self : t) : t :=
  if (AppLogLevel.value (logLevel self) <=? AppLogLevel.value AppLogLevel.INFO)%Z
  then log timestamp "INFO" message args self
  else self.

Definition warn (timestamp message : string) (args : list any) (self : t) : t :=
  if (AppLogLevel.value (logLevel self) <=? AppLogLevel.value AppLogLevel.WARN)%Z
  then log timestamp "WARN" message args self
  else self.

(** [error] is the stack of the error handed over, when one is. *)
Definition error (timestamp message : string) (error : option string) (args : list any)
    (self : t) : t :=
  if (AppLogLevel.value (logLevel self) <=? AppLogLevel.value AppLogLevel.ERROR)%Z
  then
    let self := log timestamp "ERROR" message args self in
    match error with
    | Some stack => appendLine ("Stack: " +:+ stack) self
    | None => self
    end
  else self.

(** [affects] is [e.affectsConfiguration("avaloniaTemplates.logLevel")]. *)
Definition onConfigurationChanged (affects : bool) (configured : option string)
    (timestamp : string) (self : t) : t :=
  if affects then
    let self :=
      {| outputChannel := outputChannel self;
         logLevel := getLogLevelFromConfig configured |} in
    info timestamp ("Log level changed to: " +:+ AppLogLevel.nameOf (logLevel self)) [] self
  else self.

End Methods.

End Logger.

(** A call of one of the four logging methods. *)
Inductive LogCall (any : Type) :=
| CallDebug (message : string) (args : list any)
| CallInfo (message : string) (args : list any)
| CallWarn (message : string) (args : list any)
| CallError (message : string) (error : option string) (args : list any).
Arguments CallDebug {any} message args.
Arguments CallInfo {any} message args.
Arguments CallWarn {any} message args.
Arguments CallError {any} message error args.

(** The level a call is made at. *)
Definition severity {any} (call : LogCall any) : AppLogLevel.t :=
  match call with
  | CallDebug _ _ => AppLogLevel.DEBUG
  | CallInfo _ _ => AppLogLevel.INFO
  | CallWarn _ _ => AppLogLevel.WARN
  | CallError _ _ _ => AppLogLevel.ERROR
  end.

Definition perform {any} (stringify : any -> string) (timestamp : string)
    (call : LogCall any) (self : Logger.t) : Logger.t :=
  match call with
  | CallDebug message args => Logger.debug stringify timestamp message args self
  | CallInfo message args => Logger.info stringify timestamp message args self
  | CallWarn message args => Logger.warn stringify timestamp message args self
  | CallError message error args => Logger.error stringify timestamp message error args self
  end.

(** A run of calls, each with the time it is made at. *)
Fixpoint performAll {any} (stringify : any -> string)
    (calls : list (string * LogCall any)) (self : Logger.t) : Logger.t :=
  match calls with
  | [] => self
  | (timestamp, call) :: rest =>
      performAll stringify rest (perform stringify timestamp call self)
  end.

(* ===================================================================== *)
(** ** Further vocabulary                                                *)
(* ===================================================================== *)

(** Every code unit of [s] satisfies [p]. *)
Fixpoint allChars (p : ascii -> bool) (s : string) : bool :=
  match s with
  | EmptyString => true
  | String c s' => p c && allChars p s'
  end.

(** A code unit that may stand in a captured namespace: neither white
    space nor a semicolon. *)
Definition namespaceChar (c : ascii) : bool := negb (isSpace c || Ascii.eqb c ";").

(** A name a namespace declaration can carry. *)
Definition namespaceName (s : string) : Prop :=
  s <> EmptyString /\ allChars namespaceChar s = true.

(** [s] is empty or starts on a code unit that ends a captured namespace. *)
Definition endsCapture (s : string) : Prop :=
  match s with
  | EmptyString => True
  | String c _ => namespaceChar c = false
  end.

(** The strings of a list that are not empty. *)
Definition nonEmpty (parts : list string) : list string :=
  List.filter (fun part => negb (String.eqb part EmptyString)) parts.

(** [q] is [p] or lies below it on the disk [w]: it is reached from [p]
    through directory entries of the listings on the way. *)
Inductive below `{path.Platform} (w : fs.World) : string -> string -> Prop :=
| below_here p : below w p p
| below_entry p items item q :
    fs.dirs w !! p = Some items ->
    In item items ->
    fs.isDirectory item = true ->
    below w (path.join p (fs.name item)) q ->
    below w p q.

(** The inheritance clause the injection writes. *)
Definition classToken (viewModelFileName : string) : string :=
  " class " +:+ viewModelFileName.

Definition inheritanceClause (viewModelFileName : string) : string :=
  " class " +:+ viewModelFileName +:+ " : ViewModelBase" +:+ CRLF.

Definition usingStatement (viewModelBaseNamespace : string) : string :=
  "using " +:+ viewModelBaseNamespace +:+ ";" +:+ CRLF +:+ CRLF.

(* ===================================================================== *)
(** ** Further samples                                                   *)
(* ===================================================================== *)

Module Samples.

(** A project with a freshly generated window [Foo] in [Views]. *)
Definition markupText : string :=
  "<Window x:Class=" +:+ dquote +:+ "Old.Foo" +:+ dquote +:+ ">".

Definition codeText : string :=
  "namespace Old;" +:+ CRLF +:+ "class Foo {}".

Definition project : fs.World :=
  {| fs.dirs := list_to_map
       [ ("/ws", [Demo.file "App.csproj"; Demo.folder "Views"]);
         ("/ws/Views", [Demo.file "Foo.axaml"; Demo.file "Foo.axaml.cs"]) ];
     fs.files := list_to_map
       [ ("/ws/Views/Foo.axaml", markupText);
         ("/ws/Views/Foo.axaml.cs", codeText) ] |}.

(** A project with a freshly generated templated control [Dial]. *)
Definition controlMarkup : string :=
  "<Styles xmlns:controls=" +:+ dquote +:+ "using:Old" +:+ dquote +:+ ">".

Definition control : fs.World :=
  {| fs.dirs := list_to_map
       [ ("/ws", [Demo.file "App.csproj"; Demo.folder "Controls"]);
         ("/ws/Controls", [Demo.file "Dial.axaml"; Demo.file "Dial.axaml.cs"]) ];
     fs.files := list_to_map
       [ ("/ws/Controls/Dial.axaml", controlMarkup);
         ("/ws/Controls/Dial.axaml.cs", "namespace Old;" +:+ CRLF +:+ "class Dial {}") ] |}.

(** A directory whose project file holds [.csproj] twice. *)
Definition nested : fs.World :=
  {| fs.dirs := {[ "/lib" := [Demo.file "notes.md"; Demo.file "My.csproj.Tests.csproj"] ]};
     fs.files := ∅ |}.

(** A Windows path with two capital dotted I in front of [Views]. *)
Definition dotted : string :=
  String Unicode.dottedCapitalI (String Unicode.dottedCapitalI EmptyString).

Definition dottedPath : string := "C:\" +:+ dotted +:+ "\Views\Sub".

(** Log arguments that are JSON texts already. *)
Definition asIs (arg : string) : string := arg.

(** A short run of calls. *)
Definition run : list (string * LogCall string) :=
  [ ("09:00", CallDebug "searching" ["/ws"]);
    ("09:01", CallWarn "not restored" []);
    ("09:02", CallError "failed" (Some "at createTemplate") []) ].

End Samples.

(* ===================================================================== *)
(** ** Facts about the string primitives                                 *)
(* ===================================================================== *)

Module JSFacts.
Import JS.

#[local] Arguments String.append !_ _ / : simpl nomatch.

Lemma append_empty_r s : s +:+ EmptyString = s.
Proof. induction s as [|c s IH]; simpl; [done | by rewrite IH]. Qed.

Lemma append_assoc a b c : (a +:+ b) +:+ c = a +:+ b +:+ c.
Proof. induction a as [|x a IH]; simpl; [done | by rewrite IH]. Qed.

Lemma length_append a b : String.length (a +:+ b) = String.length a + String.length b.
Proof. induction a as [|x a IH]; simpl; [done | by rewrite IH]. Qed.

Lemma take_drop n s : take n s +:+ drop n s = s.
Proof.
  revert s; induction n as [|n IH]; intros [|c s]; simpl; try done.
  by rewrite IH.
Qed.

Lemma length_take n s : String.length (take n s) = Nat.min n (String.length s).
Proof.
  revert s; induction n as [|n IH]; intros [|c s]; simpl; try done.
  by rewrite IH.
Qed.

Lemma length_drop n s : String.length (drop n s) = String.length s - n.
Proof.
  revert s; induction n as [|n IH]; intros [|c s]; simpl; try done.
Qed.

Lemma take_app a b : take (String.length a) (a +:+ b) = a.
Proof. induction a as [|x a IH]; simpl; [by destruct b | by rewrite IH]. Qed.

Lemma drop_app a b : drop (String.length a) (a +:+ b) = b.
Proof. induction a as [|x a IH]; simpl; done. Qed.

Lemma drop_drop n m s : drop n (drop m s) = drop (m + n) s.
Proof.
  revert s; induction m as [|m IH]; intros s; simpl; [done |].
  destruct s as [|c s]; [by destruct n | apply IH].
Qed.

Lemma take_all n s : String.length s <= n -> take n s = s.
Proof.
  revert s; induction n as [|n IH]; intros [|c s]; simpl; intros Hn; try done; try lia.
  rewrite IH; [done | lia].
Qed.

Lemma drop_all n s : String.length s <= n -> drop n s = EmptyString.
Proof.
  revert s; induction n as [|n IH]; intros [|c s]; simpl; intros Hn; try done; try lia.
  apply IH; lia.
Qed.

Lemma startsWith_app pat rest : startsWith (pat +:+ rest) pat = true.
Proof. induction pat as [|p pat IH]; simpl; [done | by rewrite Ascii.eqb_refl]. Qed.

Lemma startsWith_inv s pat : startsWith s pat = true -> s = pat +:+ drop (String.length pat) s.
Proof.
  revert s; induction pat as [|p pat IH]; intros s; simpl; [done |].
  destruct s as [|c s]; [done |].
  destruct (Ascii.eqb_spec c p) as [->|]; [|done].
  intros Hs. by rewrite <- (IH s Hs).
Qed.

Lemma startsWith_spec s pat : startsWith s pat = true <-> exists rest, s = pat +:+ rest.
Proof.
  split.
  - intros Hs. eexists. by apply startsWith_inv.
  - intros [rest ->]. apply startsWith_app.
Qed.

Lemma occurs_at_drop pat s i :
  occurs_at pat s i <-> i <= String.length s /\ startsWith (drop i s) pat = true.
Proof.
  split.
  - intros (pre & post & -> & <-). split.
    + rewrite length_append. lia.
    + rewrite drop_app. apply startsWith_app.
  - intros [Hi Hs]. exists (take i s), (drop (String.length pat) (drop i s)). split.
    + rewrite <- (startsWith_inv _ _ Hs). by rewrite take_drop.
    + rewrite length_take. lia.
Qed.

Lemma occurs_at_head c s pat k : occurs_at pat (String c s) (S k) <-> occurs_at pat s k.
Proof. rewrite !occurs_at_drop. simpl. split; intros [? ?]; split; try done; lia. Qed.

Lemma search_found pat s j :
  search pat s = Some j ->
  occurs_at pat s j /\ forall k, occurs_at pat s k -> j <= k.
Proof.
  revert j; induction s as [|c s IH]; intros j; cbn [search].
  - destruct (startsWith EmptyString pat) eqn:Hhere; [|done].
    intros [= <-]. split; [|lia]. apply occurs_at_drop. by split.
  - destruct (startsWith (String c s) pat) eqn:Hhere.
    + intros [= <-]. split; [|lia]. apply occurs_at_drop. simpl. split; [lia | done].
    + destruct (search pat s) as [j'|]; [|done]. simpl. intros [= <-].
      destruct (IH j' eq_refl) as [Hocc Hmin]. split; [by apply occurs_at_head |].
      intros [|k] Hk.
      * apply occurs_at_drop in Hk. simpl in Hk. destruct Hk; congruence.
      * apply occurs_at_head, Hmin in Hk. lia.
Qed.

Lemma search_absent pat s k : search pat s = None -> ~ occurs_at pat s k.
Proof.
  revert k; induction s as [|c s IH]; intros k; cbn [search].
  - destruct (startsWith EmptyString pat) eqn:Hhere; [done |]. intros _ Hk.
    apply occurs_at_drop in Hk. destruct Hk as [Hk Hs]. simpl in Hk.
    assert (k = 0) as -> by lia. simpl in Hs. congruence.
  - destruct (startsWith (String c s) pat) eqn:Hhere; [done |].
    destruct (search pat s) as [j'|]; [done |]. intros _.
    destruct k as [|k].
    + rewrite occurs_at_drop. simpl. intros [_ ?]. congruence.
    + rewrite occurs_at_head. by apply IH.
Qed.

Lemma search_Some pat s j :
  search pat s = Some j <->
  occurs_at pat s j /\ forall k, occurs_at pat s k -> j <= k.
Proof.
  split; [apply search_found |]. intros [Hocc Hmin].
  destruct (search pat s) as [j'|] eqn:Hs.
  - apply search_found in Hs as [Hocc' Hmin']. f_equal.
    apply Hmin in Hocc'. apply Hmin' in Hocc. lia.
  - by apply search_absent with (k := j) in Hs.
Qed.

Lemma clamp_of_nat s n : n <= String.length s -> clamp s (Z.of_nat n) = n.
Proof. unfold clamp, len. lia. Qed.

Lemma clamp_nonpos s z : (z <= 0)%Z -> clamp s z = 0.
Proof. unfold clamp, len. lia. Qed.

Lemma clamp_beyond s z : (len s <= z)%Z -> clamp s z = String.length s.
Proof. unfold clamp, len. lia. Qed.

Lemma clamp_le s z : clamp s z <= String.length s.
Proof. unfold clamp, len. lia. Qed.

Lemma substring_from_0 s n : n <= String.length s -> substring s 0 (Z.of_nat n) = take n s.
Proof.
  intros Hn. unfold substring. rewrite clamp_nonpos by lia. rewrite clamp_of_nat by done.
  rewrite Nat.max_r, Nat.min_l by lia. by rewrite Nat.sub_0_r.
Qed.

Lemma substring_from_0_nonpos s z : (z <= 0)%Z -> substring s 0 z = EmptyString.
Proof.
  intros Hz. unfold substring. rewrite !clamp_nonpos by lia. simpl. by destruct s.
Qed.

Lemma substring_from_0_beyond s z : (len s <= z)%Z -> substring s 0 z = s.
Proof.
  intros Hz. unfold substring. rewrite clamp_nonpos by lia. rewrite clamp_beyond by done.
  rewrite Nat.max_r, Nat.min_l by lia. rewrite Nat.sub_0_r. by apply take_all.
Qed.

Lemma substringFrom_of_nat s n :
  n <= String.length s -> substringFrom s (Z.of_nat n) = drop n s.
Proof.
  intros Hn. unfold substringFrom, substring.
  rewrite clamp_of_nat by done. rewrite clamp_beyond by lia.
  rewrite Nat.max_r, Nat.min_l by lia. apply take_all. rewrite length_drop. lia.
Qed.

Lemma substringFrom_nonpos s z : (z <= 0)%Z -> substringFrom s z = s.
Proof.
  intros Hz. unfold substringFrom, substring.
  rewrite clamp_nonpos by done. rewrite clamp_beyond by lia.
  rewrite Nat.max_r, Nat.min_l by lia. rewrite Nat.sub_0_r. by apply take_all.
Qed.

Lemma indexOf_Some s pat pos j :
  search pat (drop (clamp s pos) s) = Some j ->
  indexOf s pat pos = Z.of_nat (clamp s pos + j).
Proof. unfold indexOf. by intros ->. Qed.


Lemma includes_true s pat : includes s pat = true <-> exists a b, s = a +:+ pat +:+ b.
Proof.
  unfold includes. split.
  - destruct (search pat s) as [j|] eqn:Hs; [|done]. intros _.
    apply search_found in Hs as [(pre & post & -> & _) _]. eauto.
  - intros (a & b & ->). destruct (search pat (a +:+ pat +:+ b)) eqn:Hs; [done |].
    exfalso. apply (search_absent _ _ (String.length a) Hs). by exists a, b.
Qed.

End JSFacts.

(* ===================================================================== *)
(** ** Region substitution                                               *)
(* ===================================================================== *)

Section RegionSubstitution.

Context `{path.Platform} `{vscode.Editor}.
Import JS JSFacts.
#[local] Arguments String.append !_ _ / : simpl nomatch.

Lemma indexOf_first_occurrence pat s pre post :
  first_occurrence pat s pre post -> indexOf s pat 0 = Z.of_nat (String.length pre).
Proof.
  intros [Hs Hmin]. rewrite (indexOf_Some _ _ _ (String.length pre)).
  - by rewrite clamp_nonpos.
  - rewrite clamp_nonpos by done. simpl. apply search_Some. split; [|done].
    by exists pre, post.
Qed.

(** With both markers in place, the text written back differs from the
    text read only between the markers. *)
Lemma modifiedData_region args content pre mid post :
  first_occurrence (ChangeFileContentArgs.startContent args) content pre
    (mid +:+ ChangeFileContentArgs.endContent args +:+ post) ->
  first_occurrence (ChangeFileContentArgs.endContent args)
    (mid +:+ ChangeFileContentArgs.endContent args +:+ post) mid post ->
  modifiedData args content =
    pre +:+ ChangeFileContentArgs.startContent args
        +:+ namespaceToUse args
        +:+ ChangeFileContentArgs.endContent args +:+ post.
Proof.
  set (start := ChangeFileContentArgs.startContent args).
  set (stop := ChangeFileContentArgs.endContent args).
  intros Hstart Hstop. unfold modifiedData. fold start stop.
  rewrite (indexOf_first_occurrence _ _ _ _ Hstart).
  destruct Hstart as [Hcontent _].
  assert (String.length content
          = String.length pre + String.length start
            + String.length (mid +:+ stop +:+ post)) as Hlen.
  { rewrite Hcontent at 1. rewrite !length_append. lia. }
  unfold len. rewrite <- Nat2Z.inj_add.
  assert (drop (String.length pre + String.length start) content = mid +:+ stop +:+ post)
    as Hdrop.
  { rewrite Hcontent at 1. rewrite <- append_assoc, <- length_append. apply drop_app. }
  rewrite (indexOf_Some _ _ _ (String.length mid)).
  2:{ rewrite clamp_of_nat by lia. rewrite Hdrop. apply search_Some.
      destruct Hstop as [_ Hmin]. split; [by exists mid, post | done]. }
  rewrite clamp_of_nat by lia.
  rewrite substring_from_0 by lia.
  rewrite substringFrom_of_nat.
  2:{ rewrite Hlen, !length_append. lia. }
  rewrite <- drop_drop, Hdrop, drop_app.
  assert (take (String.length pre + String.length start) content = pre +:+ start)
    as ->.
  { rewrite Hcontent at 1. rewrite <- append_assoc, <- length_append. apply take_app. }
  by rewrite append_assoc.
Qed.

Lemma occurs_first pat s :
  occurs pat s -> exists pre post, first_occurrence pat s pre post.
Proof.
  intros (a & b & Hs).
  destruct (search pat s) as [j|] eqn:Hsearch.
  - apply search_found in Hsearch as [(pre & post & Hcut & <-) Hmin].
    by exists pre, post.
  - exfalso. apply (search_absent _ _ (String.length a) Hsearch). by exists a, b.
Qed.

(** C2.  Let the first occurrence of the start marker cut the text of the
    file into [pre], the marker and [rest], and let the end marker occur in
    [rest].  Then the first occurrence of the end marker cuts [rest] into
    [mid], the marker and [post], and [changeFileContent] writes back the
    text in which [mid], the span strictly between the two markers, is
    replaced by the namespace: all that precedes the span, start marker
    included, and all from the end marker onward is the text that was
    read. *)
Theorem changeFileContent_replaces_region args w content pre rest :
  fs.files w !! ChangeFileContentArgs.filePath args = Some content ->
  first_occurrence (ChangeFileContentArgs.startContent args) content pre rest ->
  occurs (ChangeFileContentArgs.endContent args) rest ->
  exists mid post,
    first_occurrence (ChangeFileContentArgs.endContent args) rest mid post
    /\ changeFileContent args w =
       (if ChangeFileContentArgs.openFile args
        then openTextDocument (ChangeFileContentArgs.filePath args)
        else ret tt)
         (fs.writeFileSync (ChangeFileContentArgs.filePath args)
            (pre +:+ ChangeFileContentArgs.startContent args
                 +:+ namespaceToUse args
                 +:+ ChangeFileContentArgs.endContent args +:+ post) w).
Proof.
  intros Hfile Hstart Hstop.
  destruct (occurs_first _ _ Hstop) as (mid & post & Hcut).
  exists mid, post. split; [done |].
  pose proof Hcut as [Hrest _]. rewrite Hrest in Hstart, Hcut.
  unfold changeFileContent, bind, liftR, fs.readFileSync. rewrite Hfile.
  by rewrite (modifiedData_region _ _ _ _ _ Hstart Hcut).
Qed.

Lemma first_occurrence_search pat s pre post :
  s = pre +:+ pat +:+ post ->
  search pat s = Some (String.length pre) ->
  first_occurrence pat s pre post.
Proof. intros Hs Hsearch. split; [done |]. by apply search_found in Hsearch as [_ ?]. Qed.

(** Whatever the markers, a file that can be read is written back. *)
Lemma changeFileContent_always_writes args w content :
  fs.files w !! ChangeFileContentArgs.filePath args = Some content ->
  ChangeFileContentArgs.openFile args = false ->
  changeFileContent args w
  = Returns (tt, fs.writeFileSync (ChangeFileContentArgs.filePath args)
                   (modifiedData args content) w).
Proof.
  intros Hfile Hopen.
  unfold changeFileContent, bind, liftR, fs.readFileSync. by rewrite Hfile, Hopen.
Qed.

(** C1 (what the code does).  A missing marker is not reported.  On a
    file whose namespace declaration has lost its semicolon, and on a file
    without a namespace declaration, [changeFileContent] returns normally
    and writes the namespace to a place no marker designates: in front of
    the whole text read, or into the middle of another declaration. *)
Theorem changeFileContent_missing_marker_still_writes :
  (JS.includes ("namespace Old.Ns" +:+ CRLF +:+ "class Foo {}") ";" = false
   /\ changeFileContent (Demo.codeBehind "/p/Foo.axaml.cs") Demo.noEndMarker
      = Returns (tt, fs.writeFileSync "/p/Foo.axaml.cs"
                       ("namespace App.Views"
                        +:+ "namespace Old.Ns" +:+ CRLF +:+ "class Foo {}")
                       Demo.noEndMarker))
  /\ (JS.includes ("using System;" +:+ CRLF +:+ "class Foo {}") "namespace " = false
      /\ changeFileContent (Demo.codeBehind "/p/Foo.axaml.cs") Demo.noStartMarker
         = Returns (tt, fs.writeFileSync "/p/Foo.axaml.cs"
                          ("using SysApp.Views;" +:+ CRLF +:+ "class Foo {}")
                          Demo.noStartMarker)).
Proof. repeat split; vm_compute; reflexivity. Qed.

End RegionSubstitution.

Lemma changeFileContent_replaces_region_witness :
  exists mid post,
    first_occurrence ";" ("Old.Ns;" +:+ CRLF +:+ "public class Foo {}") mid post
    /\ @changeFileContent Posix.editor
         (Demo.codeBehind "/ws/src/App/Views/Foo.axaml.cs") Demo.workspace
       = Returns (tt, fs.writeFileSync "/ws/src/App/Views/Foo.axaml.cs"
                        ("using X;" +:+ CRLF +:+ "namespace " +:+ "App.Views" +:+ ";" +:+ post)
                        Demo.workspace).
Proof.
  apply (@changeFileContent_replaces_region Posix.editor
           (Demo.codeBehind "/ws/src/App/Views/Foo.axaml.cs") Demo.workspace
           ("using X;" +:+ CRLF +:+ "namespace Old.Ns;" +:+ CRLF +:+ "public class Foo {}")
           ("using X;" +:+ CRLF) ("Old.Ns;" +:+ CRLF +:+ "public class Foo {}")).
  - vm_compute. reflexivity.
  - apply first_occurrence_search; vm_compute; reflexivity.
  - exists "Old.Ns", (CRLF +:+ "public class Foo {}"). reflexivity.
Defined.

(* ===================================================================== *)
(** ** Root location                                                     *)
(* ===================================================================== *)

Section RootLocation.

Context `{path.Platform}.

Lemma contains_hasMarker w p d :
  on_disk w p d -> containsSolutionOrProject w p = hasMarker d.
Proof.
  unfold containsSolutionOrProject, fs.readdirSync.
  destruct d as [|es]; simpl; [by intros -> | by intros [-> _]].
Qed.

Lemma recursive_unfold w fuel p :
  findSolutionOrProjectRecursive w (S fuel) p =
  match fs.readdirSync_withFileTypes w p with
  | Returns its => 
      (fix loop (items : list fs.Dirent) : outcome (option string) :=
             match items with
             | [] => Returns None
             | item :: rest =>
                 if fs.isDirectory item then
                   let subDir := path.join p (fs.name item) in
                   if containsSolutionOrProject w subDir then Returns (Some subDir)
                   else
                     match findSolutionOrProjectRecursive w fuel subDir with
                     | Returns (Some result) =>
                         if JS.truthy result then Returns (Some result) else loop rest
                     | Returns None => loop rest
                     | Throws e => Returns None
                     | OutOfFuel => OutOfFuel
                     end
                 else loop rest
             end) its
  | _ => Returns None end.
  Proof. reflexivity. Qed.

(** Nothing marked below: the search comes back with [null]. *)
Lemma recursive_none w fuel d p :
  on_disk w p d -> height d <= fuel ->
  Forall (fun pd => hasMarker pd.2 = false) (preorder p d) ->
  findSolutionOrProjectRecursive w fuel p = Returns None.
Proof.
  revert d p. induction fuel as [|fuel IHf]; intros d p Hd Hh Hall.
  - destruct d; simpl in Hh; lia.
  - rewrite recursive_unfold. unfold fs.readdirSync_withFileTypes.
    destruct d as [|es]; simpl in Hd, Hh, Hall; [by rewrite Hd |].
    destruct Hd as [-> Hes]. apply le_S_n in Hh.
    induction es as [|n rest IH|n c rest IH]; simpl in *.
    + done.
    + by apply IH.
    + destruct Hes as [Hc Hrest].
      apply Forall_cons in Hall as [Hmark Hall]. apply Forall_app in Hall as [Hbelow Hafter].
      simpl in Hmark. rewrite (contains_hasMarker _ _ _ Hc), Hmark.
      rewrite (IHf c _ Hc) by (done || lia).
      apply IH; [done | lia | done].
Qed.

(** Every path of a traversal is the result of a [path.join]. *)
Lemma preorder_truthy :
  (forall a b, path.join a b <> EmptyString) ->
  (forall d p, Forall (fun pd => JS.truthy pd.1 = true) (preorder p d))
  /\ (forall es p, Forall (fun pd => JS.truthy pd.1 = true) (preorder_items p es)).
Proof.
  intros Hjoin. apply dir_items_ind; simpl; intros; try done.
  apply Forall_cons. split; [|by apply Forall_app].
  simpl. specialize (Hjoin p name). by destruct (path.join p name).
Qed.

Lemma firstMarked_truthy l r :
  Forall (fun pd : string * dir => JS.truthy pd.1 = true) l ->
  firstMarked l = Some r -> JS.truthy r = true.
Proof.
  unfold firstMarked. intros Hall Hr.
  destruct (List.find _ l) as [[q c]|] eqn:Hfind; [|done].
  simpl in Hr. injection Hr as <-.
  apply find_some in Hfind as [Hin _].
  rewrite Forall_forall in Hall. apply (Hall (q, c)). by apply list_elem_of_In.
Qed.

Lemma firstMarked_app l1 l2 :
  firstMarked (l1 ++ l2) =
  match firstMarked l1 with Some r => Some r | None => firstMarked l2 end.
Proof.
  unfold firstMarked. induction l1 as [|[q c] l1 IH]; simpl; [done |].
  by destruct (hasMarker c).
Qed.

(** The recursive search answers with the first marked directory of the
    pre-order traversal. *)
Lemma recursive_preorder w fuel d p :
  (forall a b, path.join a b <> EmptyString) ->
  on_disk w p d -> height d <= fuel ->
  findSolutionOrProjectRecursive w fuel p = Returns (firstMarked (preorder p d)).
Proof.
  intros Hjoin. revert d p. induction fuel as [|fuel IHf]; intros d p Hd Hh.
  - destruct d; simpl in Hh; lia.
  - rewrite recursive_unfold. unfold fs.readdirSync_withFileTypes.
    destruct d as [|es]; simpl in Hd, Hh; [by rewrite Hd |].
    destruct Hd as [-> Hes]. apply le_S_n in Hh. simpl preorder.
    induction es as [|n rest IH|n c rest IH]; simpl in *.
    + done.
    + by apply IH.
    + destruct Hes as [Hc Hrest].
      rewrite (contains_hasMarker _ _ _ Hc).
      unfold firstMarked at 1. simpl.
      destruct (hasMarker c) eqn:Hmark; [done |].
      fold (firstMarked (preorder (path.join p n) c ++ preorder_items p rest)).
      rewrite firstMarked_app.
      rewrite (IHf c _ Hc) by lia.
      destruct (firstMarked (preorder (path.join p n) c)) as [r|] eqn:Hr.
      * by rewrite (firstMarked_truthy _ _ (proj1 (preorder_truthy Hjoin) _ _) Hr).
      * apply IH; [done | lia].
Qed.

Lemma firstMarked_unique (l : list (string * dir)) q c :
  In (q, c) l -> hasMarker c = true ->
  (forall q' c', In (q', c') l -> hasMarker c' = true -> q' = q) ->
  firstMarked l = Some q.
Proof.
  intros Hin Hmark Huniq. unfold firstMarked.
  destruct (List.find _ l) as [[q' c']|] eqn:Hfind; simpl.
  - apply find_some in Hfind as [Hin' Hmark']. f_equal. by apply (Huniq q' c').
  - apply (find_none _ _ Hfind) in Hin. simpl in Hin. congruence.
Qed.

(** A tree with a single marked directory below the start directory: the
    search started from the start directory finds it. *)
Corollary locator_finds_the_only_marker w fuel startDir d q c :
  (forall a b, path.join a b <> EmptyString) ->
  on_disk w startDir d -> height d <= fuel ->
  hasMarker d = false ->
  In (q, c) (preorder startDir d) -> hasMarker c = true ->
  (forall q' c', In (q', c') (preorder startDir d) -> hasMarker c' = true -> q' = q) ->
  findSolutionOrProjectDirectory w fuel startDir = Returns (Some q).
Proof.
  intros Hjoin Hd Hfuel Hstart Hin Hmark Huniq. unfold findSolutionOrProjectDirectory.
  rewrite (contains_hasMarker _ _ _ Hd), Hstart.
  rewrite (recursive_preorder _ _ d) by done.
  f_equal. by apply (firstMarked_unique _ q c).
Qed.

(** C5.  The root locator looks at the start directory first and, when its
    listing holds a marker, returns it without searching further (whatever
    the recursion allowance).  Otherwise its answer is the first directory,
    in the depth-first pre-order traversal of the directories below the
    start directory, whose own listing holds a marker: a directory is
    tested before its content is searched. *)
Theorem locator_start_then_preorder w startDir d :
  (forall a b, path.join a b <> EmptyString) ->
  on_disk w startDir d ->
  (hasMarker d = true ->
   forall fuel, findSolutionOrProjectDirectory w fuel startDir = Returns (Some startDir))
  /\ (hasMarker d = false ->
      forall fuel, height d <= fuel ->
      findSolutionOrProjectDirectory w fuel startDir
      = Returns (firstMarked (preorder startDir d))).
Proof.
  intros Hjoin Hd. unfold findSolutionOrProjectDirectory.
  rewrite (contains_hasMarker _ _ _ Hd). split; intros ->; [done |].
  intros fuel Hfuel. by apply recursive_preorder.
Qed.

(** C6 (as the code has it).  When no directory of the tree holds a marker,
    the root locator returns [null], it does not throw; [findNameSpaces]
    turns that [null] into a thrown error that reports that no solution or
    project file was found. *)
Theorem no_marker_null_then_thrown w fuel startDir d createPath fileName :
  on_disk w startDir d -> height d <= fuel ->
  hasMarker d = false ->
  Forall (fun pd => hasMarker pd.2 = false) (preorder startDir d) ->
  findSolutionOrProjectDirectory w fuel startDir = Returns None
  /\ findNameSpaces w fuel createPath startDir fileName
     = Throws (Error "Solution or project file not found in workspace.").
Proof.
  intros Hd Hfuel Hmark Hall.
  assert (findSolutionOrProjectDirectory w fuel startDir = Returns None) as Hnull.
  { unfold findSolutionOrProjectDirectory.
    rewrite (contains_hasMarker _ _ _ Hd), Hmark. by apply (recursive_none _ _ d). }
  split; [done |]. unfold findNameSpaces. by rewrite Hnull.
Qed.

End RootLocation.

Lemma posix_join_nonempty a b : Posix.join a b <> EmptyString.
Proof. intros Heq. destruct a, b; vm_compute in Heq; discriminate. Qed.

Lemma workspace_on_disk : @on_disk Posix.platform Demo.workspace "/ws" Demo.workspaceTree.
Proof. vm_compute. repeat split; reflexivity. Qed.

Lemma bare_on_disk : @on_disk Posix.platform Demo.bare "/ws" Demo.bareTree.
Proof. vm_compute. repeat split; reflexivity. Qed.

Lemma locator_start_then_preorder_witness :
  @findSolutionOrProjectDirectory Posix.platform Demo.workspace 4 "/ws"
  = Returns (Some "/ws/src/App").
Proof.
  destruct (@locator_start_then_preorder Posix.platform Demo.workspace "/ws"
              Demo.workspaceTree posix_join_nonempty workspace_on_disk) as [_ Hsearch].
  apply (Hsearch eq_refl 4). vm_compute. lia.
Defined.

Lemma no_marker_null_then_thrown_witness :
  @findSolutionOrProjectDirectory Posix.platform Demo.bare 2 "/ws" = Returns None
  /\ @findNameSpaces Posix.platform Demo.bare 2 "/ws/img" "/ws" "Logo"
     = Throws (Error "Solution or project file not found in workspace.").
Proof.
  apply (@no_marker_null_then_thrown Posix.platform Demo.bare 2 "/ws" Demo.bareTree
           "/ws/img" "Logo" bare_on_disk).
  - vm_compute. lia.
  - reflexivity.
  - vm_compute. repeat constructor.
Defined.

(** C6 (as stated) fails: on a workspace without any marker the locator
    does not signal an error; what it hands back is [null]. *)
Lemma locator_null_is_not_an_error :
  hasMarker Demo.bareTree = false
  /\ Forall (fun pd => hasMarker pd.2 = false) (@preorder Posix.platform "/ws" Demo.bareTree)
  /\ @findSolutionOrProjectDirectory Posix.platform Demo.bare 2 "/ws" = Returns None
  /\ ~ signalsError (@findSolutionOrProjectDirectory Posix.platform Demo.bare 2 "/ws").
Proof.
  split; [reflexivity |]. split; [vm_compute; repeat constructor |].
  split; [reflexivity |]. intros [e He]. vm_compute in He. discriminate.
Qed.

(* ===================================================================== *)
(** ** Which namespace goes into the markup file                         *)
(* ===================================================================== *)

Section MarkupNamespace.

Context `{path.Platform}.

(** The call [changeNamespaces] makes for the markup file of a
    templated control writes the code namespace between the markers
    [xmlns:controls=] + quote + [using:] and quote + [>]; for every other
    template type it writes the full namespace between [x:Class=] + quote
    and a quote. *)
Theorem markup_namespace_by_template_type
    templateType createPath projectPath fileName namespaces :
  let call :=
    frontendCall (namespaceArgs templateType createPath projectPath fileName) namespaces in
  ChangeFileContentArgs.filePath call = path.join createPath (fileName +:+ ".axaml")
  /\ (templateType = TemplatedControl ->
      namespaceToUse call = csharpNameSpace namespaces
      /\ ChangeFileContentArgs.startContent call = "xmlns:controls=" +:+ dquote +:+ "using:"
      /\ ChangeFileContentArgs.endContent call = dquote +:+ ">")
  /\ (templateType <> TemplatedControl ->
      namespaceToUse call = xamlNameSpace namespaces
      /\ ChangeFileContentArgs.startContent call = "x:Class=" +:+ dquote
      /\ ChangeFileContentArgs.endContent call = dquote).
Proof.
  simpl. split; [done |]. unfold namespaceToUse. simpl.
  split; intros Ht.
  - by rewrite !bool_decide_eq_true_2.
  - by rewrite !bool_decide_eq_false_2.
Qed.

End MarkupNamespace.

Lemma markup_namespace_by_template_type_witness :
  @namespaceToUse
    (@frontendCall Posix.platform
       (namespaceArgs TemplatedControl "/ws/Controls" "/ws" "Dial") Demo.dial) = "App.Controls"
  /\ @namespaceToUse
       (@frontendCall Posix.platform
          (namespaceArgs Window "/ws/Controls" "/ws" "Dial") Demo.dial) = "App.Controls.Dial".
Proof.
  split.
  - apply (@markup_namespace_by_template_type Posix.platform
             TemplatedControl "/ws/Controls" "/ws" "Dial" Demo.dial). reflexivity.
  - apply (@markup_namespace_by_template_type Posix.platform
             Window "/ws/Controls" "/ws" "Dial" Demo.dial). discriminate.
Defined.

(* ===================================================================== *)
(** ** Namespace construction                                            *)
(* ===================================================================== *)

Section Namespaces.

Context `{path.Platform}.
Import JS JSFacts.
#[local] Arguments String.append !_ _ / : simpl nomatch.

Lemma truthy_true s : truthy s = true <-> s <> EmptyString.
Proof. by destruct s. Qed.

Lemma truthy_false s : truthy s = false <-> s = EmptyString.
Proof. by destruct s. Qed.

Lemma truthy_append a b : truthy a = true -> truthy (a +:+ b) = true.
Proof. by destruct a. Qed.

(** Joining segments none of which is empty gives the empty string only
    when there is no segment. *)
Lemma join_truthy parts sep_ :
  Forall (fun part => truthy part = true) parts ->
  truthy (join parts sep_) = match parts with [] => false | _ => true end.
Proof.
  intros Hparts. destruct Hparts as [|p rest Hp Hrest]; [done |].
  simpl. destruct rest; [done | by apply truthy_append].
Qed.

Lemma filter_truthy_segments relativePath :
  List.filter (fun part => truthy part) (split relativePath path.sep)
  = segments relativePath.
Proof.
  unfold segments. apply filter_ext. by intros [|c part].
Qed.

Lemma segments_truthy relativePath :
  Forall (fun part => truthy part = true) (segments relativePath).
Proof.
  rewrite <- filter_truthy_segments. apply Forall_forall. intros part Hin.
  apply list_elem_of_In, filter_In in Hin. tauto.
Qed.

(** C3.  The namespace built for an entity is the dot-joined non-empty
    segments of the relative path from the root to the target directory,
    followed by a dot and the entity name, or the entity name alone when
    there is no segment; for a project root (no solution file) with a
    non-empty project name [P] the whole is prefixed with [P] and a dot,
    so that it starts with [P.]. *)
Theorem constructNamespace_dotted_path
    createPath solutionDir fileName isSolutionDir projectName :
  let parts := segments (path.relative solutionDir createPath) in
  let dotted :=
    match parts with
    | [] => fileName
    | _ => join parts "." +:+ "." +:+ fileName
    end in
  (isSolutionDir = true \/ projectName = EmptyString ->
   constructNamespace createPath solutionDir fileName isSolutionDir projectName = dotted)
  /\ (isSolutionDir = false -> projectName <> EmptyString ->
      constructNamespace createPath solutionDir fileName isSolutionDir projectName
      = projectName +:+ "." +:+ dotted
      /\ startsWith
           (constructNamespace createPath solutionDir fileName isSolutionDir projectName)
           (projectName +:+ ".") = true).
Proof.
  intros parts dotted.
  assert (constructNamespace createPath solutionDir fileName isSolutionDir projectName
          = if negb isSolutionDir && truthy projectName
            then projectName +:+ "." +:+ dotted else dotted) as Heq.
  { unfold constructNamespace. rewrite filter_truthy_segments. fold parts.
    rewrite (join_truthy parts ".") by apply segments_truthy.
    subst dotted. by destruct parts. }
  rewrite Heq. split.
  - intros [-> | ->]; [done | by rewrite andb_false_r].
  - intros -> Hname. apply truthy_true in Hname. rewrite Hname. cbn [negb andb].
    split; [done |]. rewrite <- append_assoc. apply startsWith_app.
Qed.

Lemma occurs_at_empty pat k : occurs_at pat EmptyString k -> k = 0.
Proof. rewrite occurs_at_drop. simpl. lia. Qed.

Lemma occurs_at_here pat s : occurs_at pat s 0 <-> startsWith s pat = true.
Proof. rewrite occurs_at_drop. simpl. split; [tauto | split; [lia | done]]. Qed.

(** The scan for the last occurrence: either there is none and the
    running answer is kept, or the answer is the greatest offset at which
    the pattern occurs. *)
Lemma lastIndexOf_from_spec pat s i found :
  ((forall k, ~ occurs_at pat s k) /\ lastIndexOf_from pat s i found = found)
  \/ (exists j, occurs_at pat s j
              /\ (forall k, occurs_at pat s k -> k <= j)
              /\ lastIndexOf_from pat s i found = (i + Z.of_nat j)%Z).
Proof.
  revert i found. induction s as [|c s IH]; intros i found; cbn [lastIndexOf_from].
  - destruct (startsWith EmptyString pat) eqn:Hhere.
    + right. exists 0. split; [by apply occurs_at_here |]. split; [|lia].
      intros k Hk. apply occurs_at_empty in Hk. lia.
    + left. split; [|done]. intros k Hk.
      pose proof (occurs_at_empty _ _ Hk) as ->. apply occurs_at_here in Hk. congruence.
  - set (found' := if startsWith (String c s) pat then i else found).
    destruct (IH (i + 1)%Z found') as [[Hnone ->] | (j & Hocc & Hmax & ->)].
    + subst found'. destruct (startsWith (String c s) pat) eqn:Hhere.
      * right. exists 0. split; [by apply occurs_at_here |]. split; [|lia].
        intros [|k] Hk; [done |]. apply occurs_at_head in Hk. by apply Hnone in Hk.
      * left. split; [|done]. intros [|k] Hk.
        -- apply occurs_at_here in Hk. congruence.
        -- apply occurs_at_head in Hk. by apply Hnone in Hk.
    + right. exists (S j). split; [by apply occurs_at_head |]. split; [|lia].
      intros [|k] Hk; [lia |]. apply occurs_at_head, Hmax in Hk. lia.
Qed.

Lemma occurs_iff pat s : occurs pat s <-> exists k, occurs_at pat s k.
Proof.
  split.
  - intros (pre & post & ->). exists (String.length pre). by exists pre, post.
  - intros (k & pre & post & -> & _). by exists pre, post.
Qed.

(** Cutting a text that holds a dot at its last dot. *)
Lemma truncate_at_last_dot namespace :
  occurs "." namespace ->
  exists front last,
    namespace = front +:+ "." +:+ last
    /\ ~ occurs "." last
    /\ substring namespace 0 (lastIndexOf namespace ".") = front.
Proof.
  intros Hdot. unfold lastIndexOf.
  destruct (lastIndexOf_from_spec "." namespace 0 (-1))
    as [[Hnone _] | (j & Hocc & Hmax & ->)].
  { apply occurs_iff in Hdot as [k Hk]. by apply Hnone in Hk. }
  destruct Hocc as (front & last & Hns & Hlen).
  exists front, last. split; [done |]. split.
  - intros (a & b & Hlast).
    assert (occurs_at "." namespace (j + 1 + String.length a)) as Hlater.
    { exists (front +:+ "." +:+ a), b. split.
      - rewrite Hns, Hlast. by rewrite !append_assoc.
      - rewrite !length_append. simpl. lia. }
    apply Hmax in Hlater. lia.
  - rewrite Z.add_0_l. rewrite substring_from_0.
    + subst j. rewrite Hns. apply take_app.
    + rewrite Hns, length_append. lia.
Qed.

(** C4.  The code namespace that [findNameSpaces] returns is the full
    namespace cut at its last dot when the full namespace holds a dot, so
    that the full namespace starts with the code namespace followed by a
    dot; otherwise the two are the same string. *)
Theorem codeNamespace_truncates_at_last_dot
    w fuel createPath projectPath fileName namespaces :
  findNameSpaces w fuel createPath projectPath fileName = Returns namespaces ->
  (occurs "." (xamlNameSpace namespaces) ->
   (exists last,
      xamlNameSpace namespaces = csharpNameSpace namespaces +:+ "." +:+ last
      /\ ~ occurs "." last)
   /\ startsWith (xamlNameSpace namespaces) (csharpNameSpace namespaces +:+ ".") = true)
  /\ (~ occurs "." (xamlNameSpace namespaces) ->
      csharpNameSpace namespaces = xamlNameSpace namespaces).
Proof.
  unfold findNameSpaces.
  destruct (findSolutionOrProjectDirectory w fuel projectPath) as [[solutionDir|]| |];
    try done.
  destruct (truthy solutionDir); [|done].
  destruct (analyzeSolutionDirectory w solutionDir) as [[isSolutionDir projectName]| |];
    try done.
  set (namespace :=
         constructNamespace createPath solutionDir fileName isSolutionDir projectName).
  destruct (truthy namespace); [|done].
  intros [= <-]. simpl. split.
  - intros Hdot.
    assert (includes namespace "." = true) as ->.
    { apply includes_true. destruct Hdot as (a & b & ->). eauto. }
    destruct (truncate_at_last_dot namespace Hdot) as (front & last & Hns & Hlast & ->).
    split; [by exists last |].
    rewrite Hns at 1. rewrite <- append_assoc. apply startsWith_app.
  - intros Hnodot.
    destruct (includes namespace ".") eqn:Hinc; [|done].
    apply includes_true in Hinc as (a & b & Hns). exfalso. apply Hnodot. by exists a, b.
Qed.

End Namespaces.

(* ===================================================================== *)
(** ** Case-insensitive matching                                         *)
(* ===================================================================== *)

Module CaseFacts.
Import JS JSFacts.
#[local] Arguments String.append !_ _ / : simpl nomatch.

Lemma nat_of_ascii_inj c d : nat_of_ascii c = nat_of_ascii d -> c = d.
Proof.
  intros Heq. rewrite <- (ascii_nat_embedding c), <- (ascii_nat_embedding d). by rewrite Heq.
Qed.

Lemma nat_of_toLowerChar c :
  nat_of_ascii (toLowerChar c)
  = if ((65 <=? nat_of_ascii c) && (nat_of_ascii c <=? 90))%nat
    then nat_of_ascii c + 32 else nat_of_ascii c.
Proof.
  unfold toLowerChar.
  destruct ((65 <=? nat_of_ascii c) && (nat_of_ascii c <=? 90))%nat eqn:Hup; [|done].
  apply nat_ascii_embedding.
  apply andb_true_iff in Hup as [_ Hle]. apply Nat.leb_le in Hle. lia.
Qed.

Lemma sameLetter_lower c d : sameLetter c d <-> toLowerChar c = toLowerChar d.
Proof.
  unfold sameLetter, isUpper. split.
  - intros Hsame. apply nat_of_ascii_inj. rewrite !nat_of_toLowerChar.
    destruct Hsame as [-> | [[Hup Hd] | [Hup Hc]]]; [done | |].
    + rewrite Hd.
      replace ((65 <=? nat_of_ascii c) && (nat_of_ascii c <=? 90))%nat with true
        by (symmetry; apply andb_true_iff; split; apply Nat.leb_le; lia).
      replace ((65 <=? nat_of_ascii c + 32) && (nat_of_ascii c + 32 <=? 90))%nat with false
        by (symmetry; apply andb_false_iff; right; apply Nat.leb_gt; lia).
      done.
    + rewrite Hc.
      replace ((65 <=? nat_of_ascii d) && (nat_of_ascii d <=? 90))%nat with true
        by (symmetry; apply andb_true_iff; split; apply Nat.leb_le; lia).
      replace ((65 <=? nat_of_ascii d + 32) && (nat_of_ascii d + 32 <=? 90))%nat with false
        by (symmetry; apply andb_false_iff; right; apply Nat.leb_gt; lia).
      done.
  - intros Heq. apply (f_equal nat_of_ascii) in Heq. rewrite !nat_of_toLowerChar in Heq.
    destruct ((65 <=? nat_of_ascii c) && (nat_of_ascii c <=? 90))%nat eqn:Hc;
      destruct ((65 <=? nat_of_ascii d) && (nat_of_ascii d <=? 90))%nat eqn:Hd.
    + left. apply nat_of_ascii_inj. lia.
    + right; left. apply andb_true_iff in Hc as [H1 H2].
      apply Nat.leb_le in H1, H2. lia.
    + right; right. apply andb_true_iff in Hd as [H1 H2].
      apply Nat.leb_le in H1, H2. lia.
    + left. by apply nat_of_ascii_inj.
Qed.

Lemma eq_ci_lower a b : eq_ci a b <-> toLowerCase a = toLowerCase b.
Proof.
  revert b; induction a as [|c a IH]; intros [|d b]; simpl; try done.
  rewrite sameLetter_lower, IH. split; [by intros [-> ->] | by intros [= -> ->]].
Qed.

Lemma toLowerCase_app a b : toLowerCase (a +:+ b) = toLowerCase a +:+ toLowerCase b.
Proof. induction a as [|c a IH]; simpl; [done | by rewrite IH]. Qed.

Lemma length_toLowerCase s : String.length (toLowerCase s) = String.length s.
Proof. induction s as [|c s IH]; simpl; [done | by rewrite IH]. Qed.

Lemma toLowerCase_take n s : toLowerCase (take n s) = take n (toLowerCase s).
Proof.
  revert s; induction n as [|n IH]; intros [|c s]; simpl; try done. by rewrite IH.
Qed.

Lemma toLowerCase_drop n s : toLowerCase (drop n s) = drop n (toLowerCase s).
Proof.
  revert s; induction n as [|n IH]; intros [|c s]; simpl; try done.
Qed.

Lemma eq_ci_length a b : eq_ci a b -> String.length a = String.length b.
Proof.
  intros Heq. apply eq_ci_lower in Heq.
  by rewrite <- (length_toLowerCase a), Heq, length_toLowerCase.
Qed.

(** An occurrence up to case is an occurrence in the lowered text. *)
Lemma occurs_ci_at_lower pat s i :
  occurs_ci_at pat s i <-> occurs_at (toLowerCase pat) (toLowerCase s) i.
Proof.
  split.
  - intros (pre & found & post & -> & Hfound & <-).
    exists (toLowerCase pre), (toLowerCase post). split.
    + rewrite !toLowerCase_app. apply eq_ci_lower in Hfound. by rewrite Hfound.
    + apply length_toLowerCase.
  - intros (pre' & post' & Hs & Hlen).
    assert (i <= String.length s) as Hi.
    { rewrite <- (length_toLowerCase s), Hs, length_append. lia. }
    exists (take i s), (take (String.length pat) (drop i s)),
           (drop (String.length pat) (drop i s)).
    split; [by rewrite !take_drop |]. split; [|rewrite length_take; lia].
    apply eq_ci_lower. rewrite toLowerCase_take, toLowerCase_drop, Hs.
    rewrite <- Hlen, drop_app, <- (length_toLowerCase pat). apply take_app.
Qed.

Lemma endsWith_spec s pat : endsWith s pat = true <-> exists front, s = front +:+ pat.
Proof.
  unfold endsWith. split.
  - destruct (String.length pat <=? String.length s)%nat eqn:Hle; [|done].
    intros Heq. apply String.eqb_eq in Heq.
    exists (take (String.length s - String.length pat) s).
    rewrite <- Heq at 2. by rewrite take_drop.
  - intros [front ->]. rewrite length_append.
    replace (String.length pat <=? String.length front + String.length pat)%nat with true
      by (symmetry; apply Nat.leb_le; lia).
    replace (String.length front + String.length pat - String.length pat)
      with (String.length front) by lia.
    rewrite drop_app. apply String.eqb_refl.
Qed.

Lemma endsWith_ci_lower s suffix :
  endsWith_ci s suffix <-> endsWith (toLowerCase s) (toLowerCase suffix) = true.
Proof.
  rewrite endsWith_spec. split.
  - intros (front & back & -> & Hback). exists (toLowerCase front).
    apply eq_ci_lower in Hback. by rewrite toLowerCase_app, Hback.
  - intros [front' Hs].
    exists (take (String.length front') s), (drop (String.length front') s).
    split; [by rewrite take_drop |].
    apply eq_ci_lower. by rewrite toLowerCase_drop, Hs, drop_app.
Qed.

End CaseFacts.

(* ===================================================================== *)
(** ** The companion view-model                                          *)
(* ===================================================================== *)

Section ViewModel.

Context `{path.Platform} `{Unicode.Lowering}.
Import JS JSFacts CaseFacts.
#[local] Arguments String.append !_ _ / : simpl nomatch.

(** C9.  The view-model of a view is named after the view followed by
    [Model] when the name of the view ends in [view] up to case, and by
    [ViewModel] otherwise. *)
Theorem viewModelFileName_by_suffix viewName :
  (endsWith_ci viewName "view" -> viewModelFileName viewName = viewName +:+ "Model")
  /\ (~ endsWith_ci viewName "view" ->
      viewModelFileName viewName = viewName +:+ "ViewModel").
Proof.
  unfold viewModelFileName. rewrite (endsWith_ci_lower viewName "view").
  change (toLowerCase "view") with "view".
  destruct (endsWith (toLowerCase viewName) "view"); split; intros Hends; done.
Qed.

Lemma backslash_sameLetter c : sameLetter c (ascii_of_nat 92) -> c = ascii_of_nat 92.
Proof.
  unfold sameLetter, isUpper. change (nat_of_ascii (ascii_of_nat 92)) with 92.
  intros [-> | [[Hup Heq] | [Hup _]]]; [done | lia | lia].
Qed.

(** An occurrence of [\views] up to case starts on a backslash. *)
Lemma views_needs_backslash viewPath i :
  occurs_ci_at "\views" viewPath i -> occurs "\" viewPath.
Proof.
  intros (pre & found & post & -> & Hfound & _).
  destruct found as [|c found]; [done |]. destruct Hfound as [Hc _].
  apply backslash_sameLetter in Hc as ->.
  exists pre, (found +:+ post). done.
Qed.

(** On ASCII paths, under a host that lowers ASCII text as
    [JS.toLowerCase] does, the view-model goes to a mirrored [ViewModels]
    directory only when the path of the view holds [\views] up to case: the
    directory is then what precedes the first such occurrence joined with
    [ViewModels] and with what follows the occurrence.  Every other ASCII
    path, a path without any backslash in particular, keeps the view-model
    in the directory of the view. *)
Lemma viewModelLocation_mirrors_backslash_views viewPath :
  Unicode.agreesOnAscii _ ->
  Unicode.isAsciiText viewPath = true ->
  (forall pre found post,
      viewPath = pre +:+ found +:+ post ->
      eq_ci found "\views" ->
      (forall i, occurs_ci_at "\views" viewPath i -> String.length pre <= i) ->
      viewModelLocation viewPath
      = (path.join (path.join pre "ViewModels") post, path.join pre "ViewModels"))
  /\ ((forall i, ~ occurs_ci_at "\views" viewPath i) ->
      viewModelLocation viewPath = (viewPath, viewPath))
  /\ (~ occurs "\" viewPath -> viewModelLocation viewPath = (viewPath, viewPath)).
Proof.
  intros Hhost Hascii.
  assert ((forall i, ~ occurs_ci_at "\views" viewPath i) ->
          viewModelLocation viewPath = (viewPath, viewPath)) as Hother.
  { intros Hnone. unfold viewModelLocation. rewrite (Hhost viewPath Hascii).
    destruct (includes (toLowerCase viewPath) "\views") eqn:Hinc; [|done].
    apply includes_true in Hinc as (a & b & Hlow). exfalso.
    apply (Hnone (String.length a)). apply occurs_ci_at_lower. by exists a, b. }
  split; [|split; [done |]].
  - intros pre found post Hpath Hfound Hfirst. unfold viewModelLocation.
    rewrite (Hhost viewPath Hascii).
    assert (first_occurrence "\views" (toLowerCase viewPath)
              (toLowerCase pre) (toLowerCase post)) as Hlow.
    { split.
      - rewrite Hpath, !toLowerCase_app. apply eq_ci_lower in Hfound. by rewrite Hfound.
      - intros i Hi. rewrite length_toLowerCase. apply Hfirst.
        by apply occurs_ci_at_lower. }
    assert (includes (toLowerCase viewPath) "\views" = true) as ->.
    { apply includes_true. destruct Hlow as [-> _]. eauto. }
    rewrite (indexOf_first_occurrence _ _ _ _ Hlow), length_toLowerCase.
    apply eq_ci_length in Hfound.
    assert (String.length viewPath
            = String.length pre + String.length found + String.length post) as Hlen.
    { rewrite Hpath, !length_append. lia. }
    rewrite substring_from_0 by lia.
    unfold len. rewrite <- Hfound, <- Nat2Z.inj_add.
    rewrite substringFrom_of_nat by lia.
    assert (take (String.length pre) viewPath = pre) as ->
      by (rewrite Hpath; apply take_app).
    assert (drop (String.length pre + String.length found) viewPath = post) as ->.
    { rewrite Hpath, <- append_assoc, <- length_append. apply drop_app. }
    done.
  - intros Hnoslash. apply Hother. intros i Hi. apply Hnoslash.
    by apply views_needs_backslash in Hi.
Qed.

End ViewModel.

Lemma viewModelFileName_by_suffix_witness :
  viewModelFileName "MainVIEW" = "MainVIEWModel"
  /\ viewModelFileName "Settings" = "SettingsViewModel".
Proof.
  split.
  - apply (viewModelFileName_by_suffix "MainVIEW").
    exists "Main", "VIEW". split; [reflexivity |].
    apply CaseFacts.eq_ci_lower. reflexivity.
  - apply (viewModelFileName_by_suffix "Settings").
    intros Hends. apply CaseFacts.endsWith_ci_lower in Hends.
    vm_compute in Hends. discriminate.
Defined.

Lemma viewModelLocation_mirrors_backslash_views_witness :
  @viewModelLocation Win32.platform Unicode.asciiOnly "C:\proj\Views\Sub"
  = ("C:\proj\ViewModels\Sub", "C:\proj\ViewModels")
  /\ @viewModelLocation Posix.platform Unicode.asciiOnly "/proj/Views/Sub"
     = ("/proj/Views/Sub", "/proj/Views/Sub").
Proof.
  split.
  - apply (proj1 (@viewModelLocation_mirrors_backslash_views Win32.platform
                    Unicode.asciiOnly "C:\proj\Views\Sub"
                    (fun _ _ => eq_refl) eq_refl) "C:\proj" "\Views" "\Sub").
    + reflexivity.
    + apply CaseFacts.eq_ci_lower. reflexivity.
    + intros i Hi. apply CaseFacts.occurs_ci_at_lower in Hi.
      assert (JS.search "\views" (JS.toLowerCase "C:\proj\Views\Sub") = Some 7) as Hfirst
        by reflexivity.
      apply JSFacts.search_found in Hfirst as [_ Hmin]. apply (Hmin i Hi).
  - apply (proj2 (proj2 (@viewModelLocation_mirrors_backslash_views Posix.platform
                           Unicode.asciiOnly "/proj/Views/Sub"
                           (fun _ _ => eq_refl) eq_refl))).
    intros Hslash. apply JSFacts.includes_true in Hslash.
    vm_compute in Hslash. discriminate.
Defined.

Lemma constructNamespace_dotted_path_witness :
  @constructNamespace Posix.platform "/proj/Views/UserControls" "/proj" "SomeUserControl"
    false "App" = "App.Views.UserControls.SomeUserControl"
  /\ @constructNamespace Posix.platform "/proj" "/proj" "MainWindow" true "App" = "MainWindow".
Proof.
  split.
  - apply (proj2 (@constructNamespace_dotted_path Posix.platform
                    "/proj/Views/UserControls" "/proj" "SomeUserControl" false "App")
             eq_refl).
    discriminate.
  - apply (proj1 (@constructNamespace_dotted_path Posix.platform
                    "/proj" "/proj" "MainWindow" true "App")).
    left. reflexivity.
Defined.

Lemma codeNamespace_truncates_at_last_dot_witness :
  JS.startsWith "App.Views.Foo" ("App.Views" +:+ ".") = true.
Proof.
  apply (@codeNamespace_truncates_at_last_dot Posix.platform Demo.workspace 4
           "/ws/src/App/Views" "/ws" "Foo"
           {| xamlNameSpace := "App.Views.Foo"; csharpNameSpace := "App.Views" |}).
  - vm_compute. reflexivity.
  - exists "App", "Views.Foo". reflexivity.
Defined.

(* ===================================================================== *)
(** ** Base-class injection                                              *)
(* ===================================================================== *)

(** C7 (what the code does).  A missing class declaration is not reported.
    On a view-model whose text does not hold the token [ class
    Foo-BarViewModel], with a base class present, the injection returns
    normally and overwrites the file: the namespace declaration and the
    class line are gone and an inheritance clause stands in their place. *)
Theorem inheritance_without_class_token_overwrites :
  JS.includes Demo.renamedClassText " class Foo-BarViewModel" = false
  /\ @inheritFromViewModelBaseIfExists Posix.platform
       "/p/ViewModels/Foo-BarViewModel.cs" "Foo-BarViewModel" "/p/ViewModels"
       Demo.renamedClass
     = Returns (tt, fs.writeFileSync "/p/ViewModels/Foo-BarViewModel.cs"
                      (" class Foo-BarViewModel : ViewModelBase" +:+ CRLF
                       +:+ "{" +:+ CRLF +:+ "}" +:+ CRLF)
                      Demo.renamedClass).
Proof. split; vm_compute; reflexivity. Qed.

(* ===================================================================== *)
(** ** The scenarios of the specification                                *)
(* ===================================================================== *)

Example scenario_markup_class :
  modifiedData
    {| ChangeFileContentArgs.filePath := "Foo.axaml";
       ChangeFileContentArgs.startContent := "x:Class=" +:+ dquote;
       ChangeFileContentArgs.endContent := dquote;
       ChangeFileContentArgs.templateType := Window;
       ChangeFileContentArgs.xamlNameSpace := "New.Ns.Foo";
       ChangeFileContentArgs.csharpNameSpace := "New.Ns";
       ChangeFileContentArgs.openFile := true;
       ChangeFileContentArgs.isCSharpFile := false |}
    ("x:Class=" +:+ dquote +:+ "Old.Ns.Foo" +:+ dquote)
  = "x:Class=" +:+ dquote +:+ "New.Ns.Foo" +:+ dquote.
Proof. reflexivity. Qed.

Example scenario_project_root :
  @findNameSpaces Posix.platform Demo.workspace 4 "/ws/src/App/Views" "/ws" "Foo"
  = Returns {| xamlNameSpace := "App.Views.Foo"; csharpNameSpace := "App.Views" |}.
Proof. vm_compute. reflexivity. Qed.

Example scenario_inheritance :
  withInheritance "FooViewModel"
    (withUsing (Some "App.ViewModels") (Some "App.ViewModels.UserControls")
       ("namespace App.ViewModels.UserControls;" +:+ CRLF +:+ CRLF
        +:+ "public class FooViewModel" +:+ CRLF +:+ "{" +:+ CRLF +:+ "}" +:+ CRLF))
  = "using App.ViewModels;" +:+ CRLF +:+ CRLF
    +:+ "namespace App.ViewModels.UserControls;" +:+ CRLF +:+ CRLF
    +:+ "public class FooViewModel : ViewModelBase" +:+ CRLF +:+ "{" +:+ CRLF +:+ "}" +:+ CRLF.
Proof. vm_compute. reflexivity. Qed.

Example scenario_no_base_class :
  @inheritFromViewModelBaseIfExists Posix.platform
    "/ws/src/App/Views/Foo.axaml.cs" "Foo" "/ws/src/App/Views" Demo.workspace
  = Returns (tt, Demo.workspace).
Proof. vm_compute. reflexivity. Qed.

(* ===================================================================== *)
(** ** Root location on any disk                                         *)
(* ===================================================================== *)

Section RootLocationAnyDisk.

Context `{path.Platform}.
Import JS JSFacts.

(** The recursive search never throws, and a directory it returns holds a
    marker. *)
Lemma recursive_answer w fuel p :
  match findSolutionOrProjectRecursive w fuel p with
  | Returns (Some r) => containsSolutionOrProject w r = true
  | Returns None => True
  | Throws _ => False
  | OutOfFuel => True
  end.
Proof.
  revert p. induction fuel as [|fuel IHf]; intros p; [done |].
  rewrite recursive_unfold.
  destruct (fs.readdirSync_withFileTypes w p) as [items| |]; [|done..].
  induction items as [|item rest IH]; [done |].
  destruct (fs.isDirectory item); [|done]. cbv zeta.
  destruct (containsSolutionOrProject w (path.join p (fs.name item))) eqn:Hmark; [done |].
  specialize (IHf (path.join p (fs.name item))).
  destruct (findSolutionOrProjectRecursive w fuel (path.join p (fs.name item)))
    as [[r|]| |]; try done.
  by destruct (truthy r).
Qed.

Lemma contains_listing w p :
  containsSolutionOrProject w p = true ->
  exists items,
    fs.dirs w !! p = Some items
    /\ exists item, In item items /\ isMarker (fs.name item) = true.
Proof.
  unfold containsSolutionOrProject, fs.readdirSync.
  destruct (fs.dirs w !! p) as [items|]; [|done].
  intros Hex. exists items. split; [done |].
  apply existsb_exists in Hex as (n & Hin & Hn).
  apply in_map_iff in Hin as (item & <- & Hin). by exists item.
Qed.

(** X1.  Whatever the disk and the recursion allowance, a directory the
    root locator returns can be listed and its listing holds an entry whose
    name ends in [.sln] or [.csproj]. *)
Theorem locator_answer_is_marked w fuel startDir r :
  findSolutionOrProjectDirectory w fuel startDir = Returns (Some r) ->
  exists items,
    fs.dirs w !! r = Some items
    /\ exists item, In item items /\ isMarker (fs.name item) = true.
Proof.
  unfold findSolutionOrProjectDirectory. intros Hfound. apply contains_listing.
  destruct (containsSolutionOrProject w startDir) eqn:Hstart.
  - by injection Hfound as <-.
  - pose proof (recursive_answer w fuel startDir) as Hrec. by rewrite Hfound in Hrec.
Qed.

(** X2.  The root locator never throws: a directory that cannot be listed,
    at the start or anywhere below, is passed over. *)
Theorem locator_never_throws w fuel startDir e :
  findSolutionOrProjectDirectory w fuel startDir <> Throws e.
Proof.
  unfold findSolutionOrProjectDirectory. intros Hthrow.
  destruct (containsSolutionOrProject w startDir); [done |].
  pose proof (recursive_answer w fuel startDir) as Hrec. by rewrite Hthrow in Hrec.
Qed.

Lemma analyze_readable w solutionDir items :
  fs.dirs w !! solutionDir = Some items ->
  exists isSolutionDir projectName,
    analyzeSolutionDirectory w solutionDir = Returns (isSolutionDir, projectName).
Proof.
  intros Hdir. unfold analyzeSolutionDirectory, fs.readdirSync. rewrite Hdir.
  destruct (negb _); [|by eauto].
  destruct (List.find _ _) as [csprojFile|]; [|by eauto].
  destruct (truthy csprojFile); by eauto.
Qed.

(** X3.  [findNameSpaces] throws nothing but its own two errors: no failure
    of the file system reaches its caller. *)
Theorem findNameSpaces_throws_only_its_errors w fuel createPath projectPath fileName e :
  findNameSpaces w fuel createPath projectPath fileName = Throws e ->
  e = Error "Solution or project file not found in workspace."
  \/ e = Error "Namespace not found.".
Proof.
  unfold findNameSpaces.
  destruct (findSolutionOrProjectDirectory w fuel projectPath) as [[solutionDir|]|e'|]
    eqn:Hfound.
  - destruct (truthy solutionDir); [|intros [= <-]; by left].
    apply locator_answer_is_marked in Hfound as (items & Hdir & _).
    destruct (analyze_readable _ _ _ Hdir) as (isSolutionDir & projectName & ->).
    destruct (truthy _); [done |]. intros [= <-]. by right.
  - intros [= <-]. by left.
  - by apply locator_never_throws in Hfound.
  - done.
Qed.

Lemma constructNamespace_ends_with_name
    createPath solutionDir fileName isSolutionDir projectName :
  exists front,
    constructNamespace createPath solutionDir fileName isSolutionDir projectName
    = front +:+ fileName.
Proof.
  unfold constructNamespace.
  set (dotted := join _ ".").
  destruct (negb isSolutionDir && truthy projectName); destruct (truthy dotted).
  - exists (projectName +:+ "." +:+ dotted +:+ "."). by rewrite !append_assoc.
  - exists (projectName +:+ "."). by rewrite !append_assoc.
  - exists (dotted +:+ "."). by rewrite !append_assoc.
  - by exists EmptyString.
Qed.

(** X4.  Once a root is found, a non-empty entity name is all it takes for
    [findNameSpaces] to return, and the full namespace it returns ends with
    the entity name. *)
Theorem findNameSpaces_returns_once_root_found
    w fuel createPath projectPath fileName solutionDir :
  findSolutionOrProjectDirectory w fuel projectPath = Returns (Some solutionDir) ->
  solutionDir <> EmptyString ->
  fileName <> EmptyString ->
  exists namespaces front,
    findNameSpaces w fuel createPath projectPath fileName = Returns namespaces
    /\ xamlNameSpace namespaces = front +:+ fileName.
Proof.
  intros Hfound Hdir Hname. unfold findNameSpaces. rewrite Hfound.
  destruct solutionDir as [|c solutionDir]; [done |]. cbn [truthy].
  apply locator_answer_is_marked in Hfound as (items & Hlist & _).
  destruct (analyze_readable _ _ _ Hlist) as (isSolutionDir & projectName & ->).
  destruct (constructNamespace_ends_with_name createPath (String c solutionDir) fileName
              isSolutionDir projectName) as [front Hns].
  rewrite Hns.
  assert (truthy (front +:+ fileName) = true) as ->.
  { destruct fileName; [done |]. by destruct front. }
  eexists _, front. split; [done |]. done.
Qed.

End RootLocationAnyDisk.

Lemma locator_answer_is_marked_witness :
  exists items,
    fs.dirs Demo.workspace !! "/ws/src/App" = Some items
    /\ exists item, In item items /\ isMarker (fs.name item) = true.
Proof.
  apply (@locator_answer_is_marked Posix.platform Demo.workspace 4 "/ws" "/ws/src/App").
  vm_compute. reflexivity.
Defined.

Lemma findNameSpaces_throws_only_its_errors_witness :
  Error "Solution or project file not found in workspace."
  = Error "Solution or project file not found in workspace."
  \/ Error "Solution or project file not found in workspace." = Error "Namespace not found.".
Proof.
  apply (@findNameSpaces_throws_only_its_errors Posix.platform Demo.bare 2
           "/ws/img" "/ws" "Logo").
  vm_compute. reflexivity.
Defined.

Lemma findNameSpaces_returns_once_root_found_witness :
  exists namespaces front,
    @findNameSpaces Posix.platform Demo.workspace 4 "/ws/src/App/Views" "/ws" "Foo"
    = Returns namespaces
    /\ xamlNameSpace namespaces = front +:+ "Foo".
Proof.
  apply (@findNameSpaces_returns_once_root_found Posix.platform Demo.workspace 4
           "/ws/src/App/Views" "/ws" "Foo" "/ws/src/App").
  - vm_compute. reflexivity.
  - discriminate.
  - discriminate.
Defined.

(* ===================================================================== *)
(** ** Solution or project: what the root says                           *)
(* ===================================================================== *)

Section SolutionDirectory.

Context `{path.Platform}.
Import JS JSFacts.
#[local] Arguments String.append !_ _ / : simpl nomatch.

Lemma take_app_le k a b : k <= String.length a -> take k (a +:+ b) = take k a.
Proof.
  revert a; induction k as [|k IH]; intros [|c a] Hk; simpl in *; try done; try lia.
  rewrite IH; [done | lia].
Qed.

Lemma drop_app_le k a b : k <= String.length a -> drop k (a +:+ b) = drop k a +:+ b.
Proof.
  revert a; induction k as [|k IH]; intros [|c a] Hk; simpl in *; try done; try lia.
  apply IH. lia.
Qed.

(** An occurrence that starts inside [a] in [a +:+ pat]: what is left of
    [a] from there on, followed by [pat], starts with [pat]. *)
Lemma occurs_at_inside pat a b k :
  k <= String.length a ->
  occurs_at pat (a +:+ b) k ->
  exists post, drop k a +:+ b = pat +:+ post.
Proof.
  intros Hk (pre & post & Heq & Hlen). exists post.
  rewrite <- (drop_app_le k a b Hk), Heq, <- Hlen. apply drop_app.
Qed.

Lemma csproj_does_not_overlap u post :
  u +:+ ".csproj" = ".csproj" +:+ post ->
  u = EmptyString \/ exists u', u = ".csproj" +:+ u'.
Proof.
  intros Heq.
  do 7 (destruct u as [|? u]; [first [by left | simpl in Heq; congruence] |]).
  right. exists u. simpl in Heq |- *. congruence.
Qed.

(** Taking the first [.csproj] out of a file name gives its stem, provided
    the stem does not hold [.csproj] itself. *)
Lemma replace_csproj stem :
  ~ occurs ".csproj" stem ->
  replace (stem +:+ ".csproj") ".csproj" EmptyString = stem.
Proof.
  intros Hstem. unfold replace.
  assert (search ".csproj" (stem +:+ ".csproj") = Some (String.length stem)) as ->.
  { apply search_Some. split; [by exists stem, EmptyString |].
    intros k Hk. destruct (decide (String.length stem <= k)) as [|Hlt]; [done |].
    exfalso. apply occurs_at_inside in Hk as [post Hpost]; [|lia].
    apply csproj_does_not_overlap in Hpost as [Hnil | [u' Hu]].
    - apply (f_equal String.length) in Hnil. rewrite length_drop in Hnil. simpl in Hnil. lia.
    - apply Hstem. exists (take k stem), u'. by rewrite <- Hu, take_drop. }
  rewrite take_app. rewrite drop_all; [by rewrite append_empty_r |].
  rewrite length_append. lia.
Qed.

Lemma find_first {A} (p : A -> bool) before x after :
  Forall (fun y => p y = false) before -> p x = true ->
  List.find p (before ++ x :: after) = Some x.
Proof.
  intros Hbefore Hx. induction Hbefore as [|y before Hy _ IH]; simpl.
  - by rewrite Hx.
  - by rewrite Hy.
Qed.

Lemma endsWith_app front pat : endsWith (front +:+ pat) pat = true.
Proof. apply CaseFacts.endsWith_spec. by exists front. Qed.

Lemma analyze_solution w solutionDir items :
  fs.dirs w !! solutionDir = Some items ->
  (exists n, In n (map fs.name items) /\ endsWith n ".sln" = true) ->
  analyzeSolutionDirectory w solutionDir = Returns (true, EmptyString).
Proof.
  intros Hdir Hsln. unfold analyzeSolutionDirectory, fs.readdirSync. rewrite Hdir.
  by rewrite (proj2 (existsb_exists _ _) Hsln).
Qed.

Lemma no_solution names :
  Forall (fun n => endsWith n ".sln" = false) names ->
  existsb (fun file => endsWith file ".sln") names = false.
Proof.
  intros Hnone. apply not_true_is_false. intros (n & Hin & Hn)%existsb_exists.
  rewrite Forall_forall in Hnone. apply list_elem_of_In, Hnone in Hin. congruence.
Qed.

Lemma analyze_project w solutionDir items before stem after :
  fs.dirs w !! solutionDir = Some items ->
  Forall (fun n => endsWith n ".sln" = false) (map fs.name items) ->
  map fs.name items = before ++ (stem +:+ ".csproj") :: after ->
  Forall (fun n => endsWith n ".csproj" = false) before ->
  ~ occurs ".csproj" stem ->
  analyzeSolutionDirectory w solutionDir = Returns (false, stem).
Proof.
  intros Hdir Hnone Hnames Hbefore Hstem.
  unfold analyzeSolutionDirectory, fs.readdirSync. rewrite Hdir.
  rewrite (no_solution _ Hnone). cbn [negb]. rewrite Hnames.
  rewrite (find_first _ before (stem +:+ ".csproj") after Hbefore (endsWith_app _ _)).
  assert (truthy (stem +:+ ".csproj") = true) as -> by by destruct stem.
  by rewrite replace_csproj.
Qed.

Lemma analyze_neither w solutionDir items :
  fs.dirs w !! solutionDir = Some items ->
  Forall (fun n => endsWith n ".sln" = false) (map fs.name items) ->
  Forall (fun n => endsWith n ".csproj" = false) (map fs.name items) ->
  analyzeSolutionDirectory w solutionDir = Returns (false, EmptyString).
Proof.
  intros Hdir Hnone Hnoproj.
  unfold analyzeSolutionDirectory, fs.readdirSync. rewrite Hdir.
  rewrite (no_solution _ Hnone). cbn [negb].
  destruct (List.find _ _) as [n|] eqn:Hfind; [|done].
  apply find_some in Hfind as [Hin Hn].
  rewrite Forall_forall in Hnoproj. apply list_elem_of_In, Hnoproj in Hin. congruence.
Qed.

(** Taking out the first occurrence of a pattern. *)
Lemma replace_first pat s a b :
  first_occurrence pat s a b -> replace s pat EmptyString = a +:+ b.
Proof.
  intros [Hs Hmin]. unfold replace.
  assert (search pat s = Some (String.length a)) as ->
    by (apply search_Some; split; [by exists a, b | done]).
  rewrite Hs, take_app, <- drop_drop, drop_app, drop_app. done.
Qed.

Lemma analyze_project_first w solutionDir items before n after a b :
  fs.dirs w !! solutionDir = Some items ->
  Forall (fun n => endsWith n ".sln" = false) (map fs.name items) ->
  map fs.name items = before ++ n :: after ->
  Forall (fun n => endsWith n ".csproj" = false) before ->
  endsWith n ".csproj" = true ->
  first_occurrence ".csproj" n a b ->
  analyzeSolutionDirectory w solutionDir = Returns (false, a +:+ b).
Proof.
  intros Hdir Hnone Hnames Hbefore Hn Hcut.
  unfold analyzeSolutionDirectory, fs.readdirSync. rewrite Hdir.
  rewrite (no_solution _ Hnone). cbn [negb]. rewrite Hnames.
  rewrite (find_first _ before n after Hbefore Hn).
  assert (truthy n = true) as ->.
  { destruct Hcut as [-> _]. by destruct a. }
  by rewrite (replace_first _ _ _ _ Hcut).
Qed.

(** X5.  What [analyzeSolutionDirectory] says of a directory it can list.
    A solution file decides: the directory is a solution root and no
    project name is given, whatever project files lie next to it.  Without
    a solution file the project name is the name of the first project file
    with its first [.csproj] taken out: what precedes that first
    occurrence followed by what follows it, which need not be the stem of
    the name.  It is the stem when the stem holds no [.csproj] of its own.
    Without any project file the project name is empty. *)
Theorem analyzeSolutionDirectory_outcomes w solutionDir items :
  fs.dirs w !! solutionDir = Some items ->
  ((exists n, In n (map fs.name items) /\ endsWith n ".sln" = true) ->
   analyzeSolutionDirectory w solutionDir = Returns (true, EmptyString))
  /\ (Forall (fun n => endsWith n ".sln" = false) (map fs.name items) ->
      (forall before n after a b,
          map fs.name items = before ++ n :: after ->
          Forall (fun n => endsWith n ".csproj" = false) before ->
          endsWith n ".csproj" = true ->
          first_occurrence ".csproj" n a b ->
          analyzeSolutionDirectory w solutionDir = Returns (false, a +:+ b))
      /\ (forall before stem after,
          map fs.name items = before ++ (stem +:+ ".csproj") :: after ->
          Forall (fun n => endsWith n ".csproj" = false) before ->
          ~ occurs ".csproj" stem ->
          analyzeSolutionDirectory w solutionDir = Returns (false, stem))
      /\ (Forall (fun n => endsWith n ".csproj" = false) (map fs.name items) ->
          analyzeSolutionDirectory w solutionDir = Returns (false, EmptyString))).
Proof.
  intros Hdir. split; [by apply analyze_solution |].
  intros Hnone. split; [|split].
  - intros before n after a b. by apply analyze_project_first.
  - intros before stem after. by apply analyze_project.
  - by apply analyze_neither.
Qed.

(** The namespace, from the non-empty segments of the relative path. *)
Lemma constructNamespace_from_segments
    createPath solutionDir fileName isSolutionDir projectName :
  constructNamespace createPath solutionDir fileName isSolutionDir projectName
  = let parts := segments (path.relative solutionDir createPath) in
    let dotted :=
      match parts with
      | [] => fileName
      | _ => join parts "." +:+ "." +:+ fileName
      end in
    if negb isSolutionDir && truthy projectName
    then projectName +:+ "." +:+ dotted else dotted.
Proof.
  unfold constructNamespace. rewrite filter_truthy_segments.
  rewrite (join_truthy _ ".") by apply segments_truthy.
  cbv zeta. by destruct (segments _).
Qed.

(** X6.  In a project root, that is a start directory whose listing has no
    solution file and whose first project file is [P.csproj] with a
    non-empty stem [P], [findNameSpaces] returns without any search, and
    the full namespace is [P], a dot, and the dotted path to the entity. *)
Theorem findNameSpaces_in_project_root
    w fuel createPath projectPath fileName items before stem after :
  projectPath <> EmptyString ->
  stem <> EmptyString ->
  fs.dirs w !! projectPath = Some items ->
  Forall (fun n => endsWith n ".sln" = false) (map fs.name items) ->
  map fs.name items = before ++ (stem +:+ ".csproj") :: after ->
  Forall (fun n => endsWith n ".csproj" = false) before ->
  ~ occurs ".csproj" stem ->
  exists namespaces,
    findNameSpaces w fuel createPath projectPath fileName = Returns namespaces
    /\ xamlNameSpace namespaces
       = stem +:+ "." +:+
         match segments (path.relative projectPath createPath) with
         | [] => fileName
         | parts => join parts "." +:+ "." +:+ fileName
         end.
Proof.
  intros Hpath Hstem Hdir Hnone Hnames Hbefore Hclean.
  unfold findNameSpaces, findSolutionOrProjectDirectory.
  assert (containsSolutionOrProject w projectPath = true) as ->.
  { unfold containsSolutionOrProject, fs.readdirSync. rewrite Hdir, Hnames.
    apply existsb_exists. exists (stem +:+ ".csproj"). split.
    - apply in_or_app. right. by left.
    - unfold isMarker. by rewrite (endsWith_app stem ".csproj"), orb_true_r. }
  apply truthy_true in Hpath. rewrite Hpath.
  rewrite (analyze_project _ _ _ _ _ _ Hdir Hnone Hnames Hbefore Hclean).
  rewrite constructNamespace_from_segments. cbv zeta.
  apply truthy_true in Hstem. rewrite Hstem. cbn [negb andb].
  rewrite (truthy_append stem _ Hstem).
  eexists. split; [done |]. cbn [xamlNameSpace]. by destruct (segments _).
Qed.

End SolutionDirectory.

Lemma analyzeSolutionDirectory_outcomes_witness :
  analyzeSolutionDirectory Samples.nested "/lib" = Returns (false, "My.Tests.csproj")
  /\ analyzeSolutionDirectory Demo.workspace "/ws/src/App" = Returns (false, "App").
Proof.
  split.
  - destruct (analyzeSolutionDirectory_outcomes Samples.nested "/lib"
                [Demo.file "notes.md"; Demo.file "My.csproj.Tests.csproj"] eq_refl)
      as [_ Hproject].
    apply (proj1 (Hproject ltac:(repeat constructor))
             ["notes.md"] "My.csproj.Tests.csproj" [] "My" ".Tests.csproj").
    + reflexivity.
    + repeat constructor.
    + reflexivity.
    + apply first_occurrence_search; vm_compute; reflexivity.
  - destruct (analyzeSolutionDirectory_outcomes Demo.workspace "/ws/src/App"
                [Demo.file "App.csproj"; Demo.folder "Views"] eq_refl) as [_ Hproject].
    apply (proj1 (proj2 (Hproject ltac:(repeat constructor))) [] "App" ["Views"]).
    + reflexivity.
    + constructor.
    + intros Hocc. apply JSFacts.includes_true in Hocc. vm_compute in Hocc. discriminate.
Defined.

Lemma findNameSpaces_in_project_root_witness :
  exists namespaces,
    @findNameSpaces Posix.platform Demo.workspace 0 "/ws/src/App/Views" "/ws/src/App" "Foo"
    = Returns namespaces
    /\ xamlNameSpace namespaces = "App.Views.Foo".
Proof.
  apply (@findNameSpaces_in_project_root Posix.platform Demo.workspace 0
           "/ws/src/App/Views" "/ws/src/App" "Foo"
           [Demo.file "App.csproj"; Demo.folder "Views"] [] "App" ["Views"]).
  - discriminate.
  - discriminate.
  - reflexivity.
  - repeat constructor.
  - reflexivity.
  - constructor.
  - intros Hocc. apply JSFacts.includes_true in Hocc. vm_compute in Hocc. discriminate.
Defined.

(* ===================================================================== *)
(** ** Paths made of segments                                            *)
(* ===================================================================== *)

Section PathSegments.

Context `{path.Platform}.
Import JS JSFacts.
#[local] Arguments String.append !_ _ / : simpl nomatch.

Variable c : ascii.

#[local] Abbreviation sepc := (String c EmptyString).

Lemma segment_head d s :
  ~ occurs sepc (String d s) -> d <> c /\ ~ occurs sepc s.
Proof.
  intros Hfree. split.
  - intros ->. apply Hfree. by exists EmptyString, s.
  - intros (a & b & ->). apply Hfree. by exists (String d a), b.
Qed.

Lemma split_go_segment cur s tail :
  ~ occurs sepc s ->
  split_go sepc 0 cur (s +:+ tail) = split_go sepc 0 (cur +:+ s) tail.
Proof.
  revert cur. induction s as [|d s IH]; intros cur Hfree.
  - simpl. by rewrite append_empty_r.
  - apply segment_head in Hfree as [Hd Hs]. simpl.
    destruct (Ascii.eqb_spec d c) as [|_]; [done |].
    rewrite (IH _ Hs). by rewrite append_assoc.
Qed.

Lemma split_go_separator cur tail :
  split_go sepc 0 cur (String c tail) = cur :: split_go sepc 0 EmptyString tail.
Proof. simpl. by rewrite Ascii.eqb_refl. Qed.

(** Splitting what was joined gives the parts back. *)
Lemma split_join parts :
  parts <> [] ->
  Forall (fun part => ~ occurs sepc part) parts ->
  split (join parts sepc) sepc = parts.
Proof.
  intros Hne Hfree. change (split (join parts sepc) sepc)
    with (split_go sepc 0 EmptyString (join parts sepc)).
  induction Hfree as [|p rest Hp Hrest IH]; [done |]. clear Hne.
  destruct rest as [|q rest].
  - simpl. rewrite <- (append_empty_r p) at 1. by rewrite split_go_segment.
  - change (join (p :: q :: rest) sepc)
      with (p +:+ String c (join (q :: rest) sepc)).
    rewrite split_go_segment by done. rewrite split_go_separator.
    by rewrite IH.
Qed.

Hypothesis sep_is_c : path.sep = String c EmptyString.

Lemma segments_join parts :
  Forall (fun part => ~ occurs path.sep part) parts ->
  segments (join parts path.sep) = nonEmpty parts.
Proof.
  unfold segments, nonEmpty. rewrite sep_is_c. intros Hfree.
  destruct parts as [|p rest]; [done |]. by rewrite split_join.
Qed.

(** X7.  When the relative path from the root to the target is a run of
    parts put together with the one-character separator of the platform,
    the namespace is made of the parts that are not empty, joined with
    dots, then a dot and the entity name: doubled, leading or trailing
    separators leave no trace.  (For a project root the project name and a
    dot come first.) *)
Theorem constructNamespace_of_joined_parts
    parts createPath solutionDir fileName isSolutionDir projectName :
  Forall (fun part => ~ occurs path.sep part) parts ->
  path.relative solutionDir createPath = join parts path.sep ->
  constructNamespace createPath solutionDir fileName isSolutionDir projectName
  = let dotted :=
      match nonEmpty parts with
      | [] => fileName
      | kept => join kept "." +:+ "." +:+ fileName
      end in
    if negb isSolutionDir && truthy projectName
    then projectName +:+ "." +:+ dotted else dotted.
Proof.
  intros Hfree Hrel. rewrite constructNamespace_from_segments.
  rewrite Hrel, (segments_join _ Hfree). cbv zeta. by destruct (nonEmpty parts).
Qed.

End PathSegments.

Lemma constructNamespace_of_joined_parts_witness :
  @constructNamespace Posix.platform "/proj/Views//UserControls/" "/proj" "Card" true
    EmptyString
  = "Views.UserControls.Card".
Proof.
  apply (@constructNamespace_of_joined_parts Posix.platform "/"%char eq_refl
           ["Views"; EmptyString; "UserControls"; EmptyString]
           "/proj/Views//UserControls/" "/proj" "Card" true EmptyString).
  - repeat constructor; intros Hocc; apply JSFacts.includes_true in Hocc;
      vm_compute in Hocc; discriminate.
  - reflexivity.
Defined.

(* ===================================================================== *)
(** ** Substituting twice, and reading back what was written             *)
(* ===================================================================== *)

Section WriteAndRead.

Import JS JSFacts.
#[local] Arguments String.append !_ _ / : simpl nomatch.

Lemma startsWith_app_long u y pat :
  String.length pat <= String.length u -> startsWith (u +:+ y) pat = startsWith u pat.
Proof.
  revert u; induction pat as [|p pat IH]; intros [|d u] Hlen; simpl in *; try done; try lia.
  destruct (Ascii.eqb d p); [|done]. apply IH. lia.
Qed.

(** The first occurrence of a marker does not depend on what follows it. *)
Lemma first_occurrence_prefix_stable pat pre x y :
  first_occurrence pat (pre +:+ pat +:+ x) pre x ->
  first_occurrence pat (pre +:+ pat +:+ y) pre y.
Proof.
  intros [_ Hmin]. split; [done |]. intros k Hk.
  destruct (decide (String.length pre <= k)) as [|Hlt]; [done |].
  apply Hmin. apply occurs_at_drop in Hk as [_ Hk]. apply occurs_at_drop.
  split; [rewrite length_append; lia |].
  rewrite <- append_assoc in Hk |- *.
  rewrite drop_app_le in Hk |- * by (rewrite length_append; lia).
  rewrite startsWith_app_long in Hk |- *
    by (rewrite length_drop, length_append; lia).
  done.
Qed.

(** X8.  Substituting again, with another namespace, gives what a single
    substitution with that namespace gives, provided the namespace written
    first did not bring in an end marker ahead of the real one.  With the
    same namespace twice, the second run changes nothing. *)
Theorem modifiedData_last_write_wins args1 args2 content pre mid post :
  ChangeFileContentArgs.startContent args2 = ChangeFileContentArgs.startContent args1 ->
  ChangeFileContentArgs.endContent args2 = ChangeFileContentArgs.endContent args1 ->
  first_occurrence (ChangeFileContentArgs.startContent args1) content pre
    (mid +:+ ChangeFileContentArgs.endContent args1 +:+ post) ->
  first_occurrence (ChangeFileContentArgs.endContent args1)
    (mid +:+ ChangeFileContentArgs.endContent args1 +:+ post) mid post ->
  first_occurrence (ChangeFileContentArgs.endContent args1)
    (namespaceToUse args1 +:+ ChangeFileContentArgs.endContent args1 +:+ post)
    (namespaceToUse args1) post ->
  modifiedData args2 (modifiedData args1 content) = modifiedData args2 content.
Proof.
  intros Hstart Hend Hfirst Hlast Hclean.
  rewrite (modifiedData_region args1 _ _ _ _ Hfirst Hlast).
  rewrite <- Hstart, <- Hend in *.
  rewrite (modifiedData_region args2 content pre mid post Hfirst Hlast).
  apply (modifiedData_region args2 _ pre (namespaceToUse args1) post); [|done].
  pose proof Hfirst as [Hcontent _]. rewrite Hcontent in Hfirst.
  by apply (first_occurrence_prefix_stable _ _ _ _ Hfirst).
Qed.

Lemma span_spec p s a b :
  span p s = (a, b) ->
  s = a +:+ b /\ allChars p a = true
  /\ match b with EmptyString => True | String c _ => p c = false end.
Proof.
  revert a b; induction s as [|c s IH]; intros a b; simpl.
  - by intros [= <- <-].
  - destruct (p c) eqn:Hc.
    + destruct (span p s) as [a' b'] eqn:Hspan. intros [= <- <-].
      destruct (IH a' b' eq_refl) as (-> & Ha & Hb). simpl. by rewrite Hc.
    + intros [= <- <-]. simpl. by rewrite Hc.
Qed.

Lemma span_all p a b :
  allChars p a = true ->
  match b with EmptyString => True | String c _ => p c = false end ->
  span p (a +:+ b) = (a, b).
Proof.
  intros Ha Hb. induction a as [|c a IH]; simpl in *.
  - destruct b as [|d b]; [done |]. simpl. by rewrite Hb.
  - apply andb_true_iff in Ha as [-> Ha]. by rewrite (IH Ha).
Qed.

Lemma namespaceMatchHere_sound s captured :
  namespaceMatchHere s = Some captured ->
  namespaceName captured
  /\ exists spaces post,
       s = "namespace" +:+ spaces +:+ captured +:+ post
       /\ spaces <> EmptyString /\ allChars isSpace spaces = true
       /\ endsCapture post.
Proof.
  unfold namespaceMatchHere.
  destruct (startsWith s "namespace") eqn:Hhead; [|done].
  apply startsWith_inv in Hhead. change (String.length "namespace") with 9 in Hhead.
  destruct (span isSpace (drop 9 s)) as [spaces after] eqn:Hspaces.
  destruct (span _ after) as [captured' post] eqn:Hcaptured.
  apply span_spec in Hspaces as (Hs & Hspace & _).
  apply span_spec in Hcaptured as (Hafter & Hvalid & Hpost).
  destruct (truthy spaces) eqn:Hts; [|done].
  destruct (truthy captured') eqn:Htc; [|done].
  intros [= <-]. split.
  - split; [by destruct captured' | done].
  - exists spaces, post. split; [by rewrite Hhead at 1; rewrite Hs, Hafter |].
    split; [by destruct spaces |]. split; [done |]. by destruct post.
Qed.

(** X9.  The name [findViewModelNamespace] and [findViewModelBaseNamespace]
    take out of a text is not empty, holds neither white space nor a
    semicolon, and stands in the text after the word [namespace] and at
    least one white space, up to the next white space, semicolon or the
    end. *)
Theorem namespaceMatch_sound content captured :
  namespaceMatch content = Some captured ->
  namespaceName captured
  /\ exists pre spaces post,
       content = pre +:+ "namespace" +:+ spaces +:+ captured +:+ post
       /\ spaces <> EmptyString /\ allChars isSpace spaces = true
       /\ endsCapture post.
Proof.
  induction content as [|c content IH]; cbn [namespaceMatch].
  - destruct (namespaceMatchHere EmptyString) eqn:Hhere; [|done].
    intros [= ->]. apply namespaceMatchHere_sound in Hhere as (? & spaces & post & ?).
    split; [done |]. by exists EmptyString, spaces, post.
  - destruct (namespaceMatchHere (String c content)) eqn:Hhere.
    + intros [= ->]. apply namespaceMatchHere_sound in Hhere as (? & spaces & post & ?).
      split; [done |]. by exists EmptyString, spaces, post.
    + intros Hlater. destruct (IH Hlater) as (? & pre & spaces & post & -> & ?).
      split; [done |]. by exists (String c pre), spaces, post.
Qed.

Lemma namespaceMatch_here s captured :
  namespaceMatchHere s = Some captured -> namespaceMatch s = Some captured.
Proof. intros Hhere. destruct s; cbn [namespaceMatch]; by rewrite Hhere. Qed.

Lemma namespaceMatch_at_first content pre tail captured :
  first_occurrence "namespace" content pre tail ->
  namespaceMatchHere ("namespace" +:+ tail) = Some captured ->
  namespaceMatch content = Some captured.
Proof.
  intros [-> Hmin] Hhere. induction pre as [|c pre IH].
  - by apply namespaceMatch_here.
  - change (String c pre +:+ "namespace" +:+ tail)
      with (String c (pre +:+ "namespace" +:+ tail)) in *.
    cbn [namespaceMatch].
    assert (namespaceMatchHere (String c (pre +:+ "namespace" +:+ tail)) = None) as ->.
    { unfold namespaceMatchHere.
      destruct (startsWith _ "namespace") eqn:Hhead; [|done].
      apply occurs_at_here, Hmin in Hhead. simpl in Hhead. lia. }
    apply IH. intros i Hi. apply occurs_at_head with (c := c), Hmin in Hi. simpl in Hi. lia.
Qed.

Lemma namespaceChar_not_space c : namespaceChar c = true -> isSpace c = false.
Proof. unfold namespaceChar. by destruct (isSpace c). Qed.

Lemma declaration_matches name rest :
  namespaceName name ->
  namespaceMatchHere ("namespace" +:+ " " +:+ name +:+ ";" +:+ rest) = Some name.
Proof.
  intros [Hne Hvalid]. unfold namespaceMatchHere.
  rewrite startsWith_app.
  change 9 with (String.length "namespace"). rewrite drop_app.
  rewrite (span_all isSpace " " (name +:+ ";" +:+ rest)); [|done |].
  2:{ destruct name as [|c name]; [done |]. simpl in *.
      apply andb_true_iff in Hvalid as [Hc _]. by apply namespaceChar_not_space. }
  fold namespaceChar. rewrite (span_all namespaceChar name (";" +:+ rest)); [|done..].
  by destruct name.
Qed.

(** X10.  What the substitution writes into a code file, the injection
    reads back.  On a text whose first [namespace] opens a declaration with
    a semicolon somewhere after it, the text [changeFileContent] writes for
    a code file yields, under the scan for the declared namespace, the very
    namespace that was written. *)
Theorem namespace_written_is_read_back args content pre rest :
  ChangeFileContentArgs.startContent args = "namespace " ->
  ChangeFileContentArgs.endContent args = ";" ->
  ChangeFileContentArgs.isCSharpFile args = true ->
  namespaceName (ChangeFileContentArgs.csharpNameSpace args) ->
  first_occurrence "namespace" content pre (" " +:+ rest) ->
  occurs ";" rest ->
  namespaceMatch (modifiedData args content) = Some (ChangeFileContentArgs.csharpNameSpace args).
Proof.
  intros Hstart Hend Hcs Hname Hfirst Hsemi.
  destruct (occurs_first _ _ Hsemi) as (mid & post & Hcut).
  pose proof Hcut as [Hrest _]. pose proof Hfirst as [Hcontent Hmin].
  assert (first_occurrence "namespace " content pre (mid +:+ ";" +:+ post)) as Hdecl.
  { split; [by rewrite Hcontent, Hrest |].
    intros i (a & b & Hi & Hlen). apply Hmin. exists a, (" " +:+ b). by rewrite Hi. }
  rewrite Hrest in Hcut.
  assert (modifiedData args content
          = pre +:+ "namespace" +:+ " "
                +:+ ChangeFileContentArgs.csharpNameSpace args +:+ ";" +:+ post) as ->.
  { rewrite <- Hstart in Hdecl. rewrite <- Hend in Hdecl, Hcut.
    rewrite (modifiedData_region args _ _ _ _ Hdecl Hcut), Hstart, Hend.
    unfold namespaceToUse. by rewrite Hcs. }
  apply (namespaceMatch_at_first _ pre
           (" " +:+ ChangeFileContentArgs.csharpNameSpace args +:+ ";" +:+ post)).
  - rewrite Hcontent in Hfirst. by apply (first_occurrence_prefix_stable _ _ _ _ Hfirst).
  - by apply declaration_matches.
Qed.

End WriteAndRead.

Lemma modifiedData_last_write_wins_witness :
  modifiedData
    {| ChangeFileContentArgs.filePath := "Foo.axaml.cs";
       ChangeFileContentArgs.startContent := "namespace ";
       ChangeFileContentArgs.endContent := ";";
       ChangeFileContentArgs.templateType := Window;
       ChangeFileContentArgs.xamlNameSpace := "Lib.Pages.Foo";
       ChangeFileContentArgs.csharpNameSpace := "Lib.Pages";
       ChangeFileContentArgs.openFile := false;
       ChangeFileContentArgs.isCSharpFile := true |}
    (modifiedData (Demo.codeBehind "Foo.axaml.cs")
       ("using X;" +:+ CRLF +:+ "namespace Old.Ns;" +:+ CRLF +:+ "public class Foo {}"))
  = "using X;" +:+ CRLF +:+ "namespace Lib.Pages;" +:+ CRLF +:+ "public class Foo {}".
Proof.
  rewrite (modifiedData_last_write_wins (Demo.codeBehind "Foo.axaml.cs") _
             ("using X;" +:+ CRLF +:+ "namespace Old.Ns;" +:+ CRLF +:+ "public class Foo {}")
             ("using X;" +:+ CRLF) "Old.Ns" (CRLF +:+ "public class Foo {}")).
  - reflexivity.
  - reflexivity.
  - reflexivity.
  - apply first_occurrence_search; vm_compute; reflexivity.
  - apply first_occurrence_search; vm_compute; reflexivity.
  - apply first_occurrence_search; vm_compute; reflexivity.
Defined.

Lemma namespaceMatch_sound_witness :
  namespaceName "Old.Ns"
  /\ exists pre spaces post,
       "using X;" +:+ CRLF +:+ "namespace Old.Ns;" +:+ CRLF +:+ "public class Foo {}"
       = pre +:+ "namespace" +:+ spaces +:+ "Old.Ns" +:+ post
       /\ spaces <> EmptyString /\ allChars isSpace spaces = true
       /\ endsCapture post.
Proof.
  apply (namespaceMatch_sound
           ("using X;" +:+ CRLF +:+ "namespace Old.Ns;" +:+ CRLF +:+ "public class Foo {}")
           "Old.Ns").
  vm_compute. reflexivity.
Defined.

Lemma namespace_written_is_read_back_witness :
  namespaceMatch
    (modifiedData (Demo.codeBehind "Foo.axaml.cs")
       ("using X;" +:+ CRLF +:+ "namespace Old.Ns;" +:+ CRLF +:+ "public class Foo {}"))
  = Some "App.Views".
Proof.
  apply (namespace_written_is_read_back (Demo.codeBehind "Foo.axaml.cs")
           ("using X;" +:+ CRLF +:+ "namespace Old.Ns;" +:+ CRLF +:+ "public class Foo {}")
           ("using X;" +:+ CRLF) ("Old.Ns;" +:+ CRLF +:+ "public class Foo {}")).
  - reflexivity.
  - reflexivity.
  - reflexivity.
  - split; [discriminate | reflexivity].
  - apply first_occurrence_search; vm_compute; reflexivity.
  - exists "Old.Ns", (CRLF +:+ "public class Foo {}"). reflexivity.
Defined.

(* ===================================================================== *)
(** ** Base-class injection, step by step                                *)
(* ===================================================================== *)

Section Injection.

Context `{path.Platform}.
Import JS JSFacts.
#[local] Arguments String.append !_ _ / : simpl nomatch.

Lemma indexOf_from_cut pat pre rest mid post :
  first_occurrence pat rest mid post ->
  indexOf (pre +:+ rest) pat (Z.of_nat (String.length pre))
  = Z.of_nat (String.length pre + String.length mid).
Proof.
  intros [Hrest Hmin].
  rewrite (indexOf_Some _ _ _ (String.length mid)).
  - rewrite clamp_of_nat; [done | rewrite length_append; lia].
  - rewrite clamp_of_nat by (rewrite length_append; lia).
    rewrite drop_app. apply search_Some. split; [by exists mid, post | done].
Qed.

(** The class line, up to the opening brace, gives way to the inheritance
    clause. *)
Lemma withInheritance_region name content pre tail mid post :
  first_occurrence (classToken name) content pre tail ->
  first_occurrence "{" (classToken name +:+ tail) mid post ->
  withInheritance name content = pre +:+ inheritanceClause name +:+ "{" +:+ post.
Proof.
  intros Htoken Hbrace. unfold withInheritance. fold (classToken name).
  rewrite (indexOf_first_occurrence _ _ _ _ Htoken).
  destruct Htoken as [-> _]. destruct Hbrace as [Hcut Hmin].
  rewrite (indexOf_from_cut "{" pre (classToken name +:+ tail) mid post) by done.
  rewrite substring_from_0 by (rewrite length_append; lia).
  rewrite substringFrom_of_nat by (rewrite length_append, Hcut, length_append; lia).
  rewrite take_app, <- drop_drop, drop_app, Hcut, drop_app. done.
Qed.

(** X11.  With the class token in the text and an opening brace after it,
    the injection replaces everything from the token up to the brace, a
    base list already there included, by the token and the inheritance
    clause; what precedes the token and what starts at the brace stay. *)
Theorem withInheritance_replaces_up_to_brace name content pre tail mid post :
  first_occurrence (classToken name) content pre tail ->
  first_occurrence "{" (classToken name +:+ tail) mid post ->
  withInheritance name content
  = pre +:+ " class " +:+ name +:+ " : ViewModelBase" +:+ CRLF +:+ "{" +:+ post.
Proof.
  intros Htoken Hbrace. rewrite (withInheritance_region _ _ _ _ _ _ Htoken Hbrace).
  unfold inheritanceClause. by rewrite !append_assoc.
Qed.

Lemma occurs_char_app x a b :
  occurs (String x EmptyString) (a +:+ b) ->
  occurs (String x EmptyString) a \/ occurs (String x EmptyString) b.
Proof.
  induction a as [|d a IH]; [by right |].
  intros (pre & post & Heq). destruct pre as [|e pre]; simpl in Heq.
  - injection Heq as -> _. left. by exists EmptyString, a.
  - injection Heq as -> Heq. destruct IH as [(p & q & ->) | ?]; [by exists pre, post | |].
    + left. by exists (String e p), q.
    + by right.
Qed.

Lemma first_char_occurrence x a post :
  ~ occurs (String x EmptyString) a ->
  first_occurrence (String x EmptyString) (a +:+ String x EmptyString +:+ post) a post.
Proof.
  intros Hfree. split; [done |]. intros k Hk.
  destruct (decide (String.length a <= k)) as [|Hlt]; [done |]. exfalso.
  apply occurs_at_inside in Hk as [rest Hrest]; [|lia].
  apply Hfree. exists (take k a).
  destruct (drop k a) as [|d u] eqn:Hdrop.
  - apply (f_equal String.length) in Hdrop. rewrite length_drop in Hdrop. simpl in Hdrop. lia.
  - simpl in Hrest. injection Hrest as -> _. exists u.
    rewrite <- (take_drop k a) at 1. by rewrite Hdrop.
Qed.

(** X12.  Injecting twice is injecting once: when the name of the class
    holds no brace, a second run over the text the first run wrote leaves
    it as it is. *)
Theorem withInheritance_idempotent name content pre tail mid post :
  ~ occurs "{" name ->
  first_occurrence (classToken name) content pre tail ->
  first_occurrence "{" (classToken name +:+ tail) mid post ->
  withInheritance name (withInheritance name content) = withInheritance name content.
Proof.
  intros Hname Htoken Hbrace.
  rewrite (withInheritance_region _ _ _ _ _ _ Htoken Hbrace).
  assert (inheritanceClause name = classToken name +:+ " : ViewModelBase" +:+ CRLF) as Hclause
    by (unfold inheritanceClause, classToken; by rewrite !append_assoc).
  rewrite Hclause, append_assoc.
  rewrite (withInheritance_region name _ pre
             ((" : ViewModelBase" +:+ CRLF) +:+ "{" +:+ post)
             (classToken name +:+ " : ViewModelBase" +:+ CRLF) post).
  - by rewrite Hclause, !append_assoc.
  - pose proof Htoken as [Hcontent _]. rewrite Hcontent in Htoken.
    by apply (first_occurrence_prefix_stable _ _ _ _ Htoken).
  - rewrite <- append_assoc. apply first_char_occurrence.
    intros [Hocc | Hocc]%occurs_char_app.
    + unfold classToken in Hocc. apply occurs_char_app in Hocc as [Hocc | Hocc]; [|done].
      apply includes_true in Hocc. vm_compute in Hocc. discriminate.
    + apply includes_true in Hocc. vm_compute in Hocc. discriminate.
Qed.


(** X14.  The injection touches one file at most, the view-model it was
    given: whenever it returns, the listings of all directories and the
    text of every other file, the base class among them, are what they
    were. *)
Theorem injection_touches_only_the_view_model
    viewModelFilePath viewModelFileName viewModelsPath w w' :
  inheritFromViewModelBaseIfExists viewModelFilePath viewModelFileName viewModelsPath w
  = Returns (tt, w') ->
  fs.dirs w' = fs.dirs w
  /\ forall other, other <> viewModelFilePath -> fs.files w' !! other = fs.files w !! other.
Proof.
  unfold inheritFromViewModelBaseIfExists.
  destruct (negb _); [by intros [= <-] |].
  destruct (fs.readFileSync w viewModelFilePath) as [fileContent| |]; [|done..].
  intros [= <-]. split; [done |]. intros other Hother. simpl.
  by apply lookup_insert_ne.
Qed.

End Injection.

Lemma withInheritance_replaces_up_to_brace_witness :
  withInheritance "FooViewModel"
    ("namespace A;" +:+ CRLF +:+ "public class FooViewModel : ObservableObject" +:+ CRLF
     +:+ "{" +:+ CRLF +:+ "}")
  = "namespace A;" +:+ CRLF +:+ "public class FooViewModel : ViewModelBase" +:+ CRLF
    +:+ "{" +:+ CRLF +:+ "}".
Proof.
  apply (withInheritance_replaces_up_to_brace "FooViewModel" _
           ("namespace A;" +:+ CRLF +:+ "public")
           (" : ObservableObject" +:+ CRLF +:+ "{" +:+ CRLF +:+ "}")
           (" class FooViewModel : ObservableObject" +:+ CRLF)
           (CRLF +:+ "}")).
  - apply first_occurrence_search; vm_compute; reflexivity.
  - apply first_occurrence_search; vm_compute; reflexivity.
Defined.

Lemma withInheritance_idempotent_witness :
  withInheritance "FooViewModel"
    (withInheritance "FooViewModel"
       ("namespace A;" +:+ CRLF +:+ "public class FooViewModel" +:+ CRLF
        +:+ "{" +:+ CRLF +:+ "}"))
  = withInheritance "FooViewModel"
      ("namespace A;" +:+ CRLF +:+ "public class FooViewModel" +:+ CRLF
       +:+ "{" +:+ CRLF +:+ "}").
Proof.
  apply (withInheritance_idempotent "FooViewModel" _
           ("namespace A;" +:+ CRLF +:+ "public")
           (CRLF +:+ "{" +:+ CRLF +:+ "}")
           (" class FooViewModel" +:+ CRLF)
           (CRLF +:+ "}")).
  - intros Hocc. apply JSFacts.includes_true in Hocc. vm_compute in Hocc. discriminate.
  - apply first_occurrence_search; vm_compute; reflexivity.
  - apply first_occurrence_search; vm_compute; reflexivity.
Defined.


Lemma injection_touches_only_the_view_model_witness :
  fs.files
    (fs.writeFileSync "/p/ViewModels/Foo-BarViewModel.cs"
       (" class Foo-BarViewModel : ViewModelBase" +:+ CRLF
        +:+ "{" +:+ CRLF +:+ "}" +:+ CRLF)
       Demo.renamedClass) !! "/p/ViewModels/ViewModelBase.cs"
  = fs.files Demo.renamedClass !! "/p/ViewModels/ViewModelBase.cs".
Proof.
  apply (@injection_touches_only_the_view_model Posix.platform
           "/p/ViewModels/Foo-BarViewModel.cs" "Foo-BarViewModel" "/p/ViewModels"
           Demo.renamedClass).
  - vm_compute. reflexivity.
  - discriminate.
Defined.

(* ===================================================================== *)
(** ** The name of the view-model                                        *)
(* ===================================================================== *)

Section ViewModelName.

Import JS JSFacts CaseFacts.
#[local] Arguments String.append !_ _ / : simpl nomatch.

(** X15.  Whatever the view is called, the name of its view-model ends in
    [ViewModel] up to case. *)
Theorem viewModelFileName_ends_in_ViewModel viewName :
  endsWith_ci (viewModelFileName viewName) "ViewModel".
Proof.
  apply endsWith_ci_lower. unfold viewModelFileName.
  destruct (endsWith (toLowerCase viewName) "view") eqn:Hends.
  - apply endsWith_spec in Hends as [front Hlow]. apply endsWith_spec.
    exists front. rewrite toLowerCase_app, Hlow. by rewrite append_assoc.
  - apply endsWith_spec. exists (toLowerCase viewName). by rewrite toLowerCase_app.
Qed.

(** X16.  Two views share a view-model: a view whose name does not end in
    [view] up to case and the view named after it with [View] added get
    the same view-model name. *)
Theorem viewModelFileName_collision viewName :
  ~ endsWith_ci viewName "view" ->
  viewModelFileName (viewName +:+ "View") = viewModelFileName viewName.
Proof.
  intros Hplain.
  assert (endsWith (toLowerCase viewName) "view" = false) as Hno.
  { apply not_true_is_false. intros Hends. apply Hplain. by apply endsWith_ci_lower. }
  assert (endsWith (toLowerCase (viewName +:+ "View")) "view" = true) as Hyes.
  { apply endsWith_spec. exists (toLowerCase viewName). by rewrite toLowerCase_app. }
  unfold viewModelFileName. rewrite Hno, Hyes. by rewrite append_assoc.
Qed.

End ViewModelName.

Lemma viewModelFileName_collision_witness :
  viewModelFileName ("Main" +:+ "View") = viewModelFileName "Main".
Proof.
  apply (viewModelFileName_collision "Main").
  intros Hends. apply CaseFacts.endsWith_ci_lower in Hends. vm_compute in Hends. discriminate.
Defined.

(* ===================================================================== *)
(** ** What the user is told                                             *)
(* ===================================================================== *)

Section Reporting.

Context `{path.Platform} `{vscode.Editor}.
Import JS JSFacts.

(** X17.  In a workspace without any solution or project file, updating
    the namespaces of a new template throws the error of the root search,
    and the error handler turns its message into the advice to open an
    Avalonia project. *)
Theorem no_project_is_reported
    w fuel templateType createPath projectPath fileName d :
  on_disk w projectPath d -> height d <= fuel ->
  hasMarker d = false ->
  Forall (fun pd => hasMarker pd.2 = false) (preorder projectPath d) ->
  exists message,
    updateTemplateNamespaces fuel templateType createPath projectPath fileName w
    = Throws (Error message)
    /\ @handleCreationError unit (Some message) w
       = Throws (Error
           "No solution or project file found in workspace. Please open an Avalonia project.").
Proof.
  intros Hd Hfuel Hmark Hall.
  exists "Solution or project file not found in workspace.". split; [|done].
  unfold updateTemplateNamespaces, changeNamespaces, bind, liftR. cbn [namespaceArgs
    ChangeNamespaceArgs.createPath ChangeNamespaceArgs.projectPath ChangeNamespaceArgs.fileName].
  unfold findNameSpaces, findSolutionOrProjectDirectory.
  rewrite (contains_hasMarker _ _ _ Hd), Hmark.
  by rewrite (recursive_none w fuel d projectPath Hd Hfuel Hall).
Qed.

(** X18.  The message of the error handler is stable: handling the error
    the handler itself throws gives the same message again. *)
Theorem creationErrorMessage_idempotent error :
  creationErrorMessage (Some (creationErrorMessage error)) = creationErrorMessage error.
Proof.
  destruct error as [message|]; [|reflexivity]. unfold creationErrorMessage.
  destruct (includes message "Solution or project file not found") eqn:Hsolution;
    [reflexivity |].
  destruct (includes message "Namespace not found") eqn:Hnamespace; [reflexivity |].
  by rewrite Hsolution, Hnamespace.
Qed.

End Reporting.

Lemma no_project_is_reported_witness :
  exists message,
    @updateTemplateNamespaces Posix.platform Posix.editor 2 Window "/ws/img" "/ws" "Logo"
      Demo.bare
    = Throws (Error message)
    /\ @handleCreationError unit (Some message) Demo.bare
       = Throws (Error
           "No solution or project file found in workspace. Please open an Avalonia project.").
Proof.
  apply (@no_project_is_reported Posix.platform Posix.editor Demo.bare 2 Window
           "/ws/img" "/ws" "Logo" Demo.bareTree bare_on_disk).
  - vm_compute. lia.
  - reflexivity.
  - vm_compute. repeat constructor.
Defined.

(* ===================================================================== *)
(** ** Both files of a template                                          *)
(* ===================================================================== *)

Section BothFiles.

Context `{path.Platform} `{vscode.Editor}.

(** X19.  With an editor that shows a document without touching the disk,
    [changeNamespaces] on a template whose two files can be read returns
    with exactly these two files rewritten, the markup file first, each
    from its own text and with the namespaces computed before any write;
    every other file and every listing is as before. *)
Theorem changeNamespaces_rewrites_both_files
    fuel args w namespaces markup code :
  (forall file w0, vscode.showDocument file w0 = Returns (tt, w0)) ->
  findNameSpaces w fuel (ChangeNamespaceArgs.createPath args)
    (ChangeNamespaceArgs.projectPath args) (ChangeNamespaceArgs.fileName args)
  = Returns namespaces ->
  ChangeFileContentArgs.filePath (frontendCall args namespaces)
  <> ChangeFileContentArgs.filePath (backendCall args namespaces) ->
  fs.files w !! ChangeFileContentArgs.filePath (frontendCall args namespaces) = Some markup ->
  fs.files w !! ChangeFileContentArgs.filePath (backendCall args namespaces) = Some code ->
  changeNamespaces fuel args w
  = Returns (tt,
      {| fs.dirs := fs.dirs w;
         fs.files :=
           <[ChangeFileContentArgs.filePath (backendCall args namespaces)
               := modifiedData (backendCall args namespaces) code]>
           (<[ChangeFileContentArgs.filePath (frontendCall args namespaces)
               := modifiedData (frontendCall args namespaces) markup]> (fs.files w)) |}).
Proof.
  intros Hquiet Hns Hdistinct Hmarkup Hcode.
  unfold changeNamespaces, bind, liftR. rewrite Hns.
  unfold changeFileContent, bind, liftR, fs.readFileSync, openTextDocument.
  rewrite Hmarkup. cbn [frontendCall ChangeFileContentArgs.openFile].
  rewrite Hquiet. cbn [fs.writeFileSync fs.files fs.dirs].
  rewrite lookup_insert_ne by done. rewrite Hcode.
  by cbn [backendCall ChangeFileContentArgs.openFile ChangeFileContentArgs.filePath ret].
Qed.

End BothFiles.

(* ===================================================================== *)
(** ** The logger                                                        *)
(* ===================================================================== *)

Section LoggerFacts.

Context {any : Type} (stringify : any -> string).
Import JS JSFacts CaseFacts.

Lemma log_line timestamp level message (args : list any) :
  exists line,
    startsWith line (timestamp +:+ " [" +:+ level +:+ "] " +:+ message) = true
    /\ forall self,
         Logger.log stringify timestamp level message args self
         = {| Logger.outputChannel := Logger.outputChannel self ++ [line];
              Logger.logLevel := Logger.logLevel self |}.
Proof.
  unfold Logger.log, Logger.appendLine. destruct (0 <? length args)%nat.
  - eexists. split; [|done].
    rewrite <- !append_assoc. rewrite (append_assoc _ " " _). apply startsWith_app.
  - eexists. split; [|done].
    rewrite <- (append_empty_r (_ +:+ _)) at 1. apply startsWith_app.
Qed.

(** The message of a call. *)
Lemma perform_shape timestamp (call : LogCall any) :
  exists line,
    startsWith line
      (timestamp +:+ " [" +:+ AppLogLevel.nameOf (severity call) +:+ "] "
       +:+ match call with
           | CallDebug message _ | CallInfo message _ | CallWarn message _
           | CallError message _ _ => message
           end) = true
    /\ forall self,
         perform stringify timestamp call self
         = if (AppLogLevel.value (Logger.logLevel self)
               <=? AppLogLevel.value (severity call))%Z
           then {| Logger.outputChannel :=
                     Logger.outputChannel self
                     ++ line :: match call with
                                | CallError _ (Some stack) _ => ["Stack: " +:+ stack]
                                | _ => []
                                end;
                   Logger.logLevel := Logger.logLevel self |}
           else self.
Proof.
  destruct call as [message args|message args|message args|message error args].
  - destruct (log_line timestamp "DEBUG" message args) as (line & Hline & Hlog).
    exists line. split; [done |]. intros self.
    unfold perform, Logger.debug. by rewrite Hlog.
  - destruct (log_line timestamp "INFO" message args) as (line & Hline & Hlog).
    exists line. split; [done |]. intros self.
    unfold perform, Logger.info. by rewrite Hlog.
  - destruct (log_line timestamp "WARN" message args) as (line & Hline & Hlog).
    exists line. split; [done |]. intros self.
    unfold perform, Logger.warn. by rewrite Hlog.
  - destruct (log_line timestamp "ERROR" message args) as (line & Hline & Hlog).
    exists line. split; [done |]. intros self.
    unfold perform, Logger.error. rewrite Hlog.
    destruct error as [stack|]; [|done].
    unfold Logger.appendLine. cbn [Logger.outputChannel Logger.logLevel].
    by rewrite <- app_assoc.
Qed.

(** X20.  A call writes to the output channel exactly when the level of
    the logger is at or below the level of the call.  Then it appends one
    line that starts with the time, the bracketed level and the message,
    followed for an error handed over by one line with its stack; otherwise
    it leaves the logger as it is.  At level [NONE] no call writes anything,
    errors included. *)
Theorem logger_threshold timestamp (call : LogCall any) self :
  ((AppLogLevel.value (severity call) < AppLogLevel.value (Logger.logLevel self))%Z ->
   perform stringify timestamp call self = self)
  /\ ((AppLogLevel.value (Logger.logLevel self) <= AppLogLevel.value (severity call))%Z ->
      exists line,
        startsWith line
          (timestamp +:+ " [" +:+ AppLogLevel.nameOf (severity call) +:+ "] "
           +:+ match call with
               | CallDebug message _ | CallInfo message _ | CallWarn message _
               | CallError message _ _ => message
               end) = true
        /\ Logger.outputChannel (perform stringify timestamp call self)
           = Logger.outputChannel self
             ++ line :: match call with
                        | CallError _ (Some stack) _ => ["Stack: " +:+ stack]
                        | _ => []
                        end)
  /\ (Logger.logLevel self = AppLogLevel.NONE ->
      perform stringify timestamp call self = self).
Proof.
  destruct (perform_shape timestamp call) as (line & Hline & Hperform).
  rewrite Hperform. split; [|split].
  - intros Hbelow. by rewrite (proj2 (Z.leb_gt _ _) Hbelow).
  - intros Hreach. exists line. split; [done |].
    by rewrite (proj2 (Z.leb_le _ _) Hreach).
  - intros ->. by destruct call.
Qed.

Lemma perform_level timestamp (call : LogCall any) self :
  Logger.logLevel (perform stringify timestamp call self) = Logger.logLevel self.
Proof.
  destruct (perform_shape timestamp call) as (line & _ & ->). by destruct (_ <=? _)%Z.
Qed.

(** X21.  A run of calls never takes anything back: the level of the
    logger is what it was and the lines that were in the output channel
    are still there, in front of the lines the run has added. *)
Theorem logger_appends_only (calls : list (string * LogCall any)) self :
  Logger.logLevel (performAll stringify calls self) = Logger.logLevel self
  /\ Logger.outputChannel self `prefix_of`
     Logger.outputChannel (performAll stringify calls self).
Proof.
  revert self. induction calls as [|[timestamp call] calls IH]; intros self; [done |].
  cbn [performAll]. destruct (IH (perform stringify timestamp call self)) as [Hlevel Hprefix].
  split; [by rewrite Hlevel, perform_level |].
  etrans; [|exact Hprefix].
  destruct (perform_shape timestamp call) as (line & _ & ->).
  destruct (_ <=? _)%Z; [|done]. by apply prefix_app_r.
Qed.

(** X22.  Raising the level only removes lines.  Of two loggers that start
    with the same lines and go through the same run of calls, the one at
    the higher level ends with a sub-list of the lines of the other. *)
Theorem logger_higher_level_logs_less
    (calls : list (string * LogCall any)) lines lower higher :
  (AppLogLevel.value lower <= AppLogLevel.value higher)%Z ->
  Logger.outputChannel
    (performAll stringify calls
       {| Logger.outputChannel := lines; Logger.logLevel := higher |})
  `sublist_of`
  Logger.outputChannel
    (performAll stringify calls
       {| Logger.outputChannel := lines; Logger.logLevel := lower |}).
Proof.
  intros Hlevels.
  assert (forall lines1 lines2,
             lines2 `sublist_of` lines1 ->
             Logger.outputChannel
               (performAll stringify calls
                  {| Logger.outputChannel := lines2; Logger.logLevel := higher |})
             `sublist_of`
             Logger.outputChannel
               (performAll stringify calls
                  {| Logger.outputChannel := lines1; Logger.logLevel := lower |})) as Hgen.
  { induction calls as [|[timestamp call] calls IH]; intros lines1 lines2 Hsub; [done |].
    cbn [performAll].
    destruct (perform_shape timestamp call) as (line & _ & Hperform).
    rewrite !Hperform. cbn [Logger.logLevel Logger.outputChannel].
    destruct (AppLogLevel.value higher <=? AppLogLevel.value (severity call))%Z eqn:Hhigh.
    - apply Z.leb_le in Hhigh.
      rewrite (proj2 (Z.leb_le (AppLogLevel.value lower) _)) by lia.
      apply IH. by apply sublist_app.
    - destruct (AppLogLevel.value lower <=? AppLogLevel.value (severity call))%Z.
      + apply IH. by apply sublist_inserts_r.
      + by apply IH. }
  by apply Hgen.
Qed.

End LoggerFacts.

Section LoggerConfiguration.

Import JS JSFacts CaseFacts.

Lemma lowered_name s level :
  eq_ci s (AppLogLevel.nameOf level) ->
  toLowerCase s = toLowerCase (AppLogLevel.nameOf level).
Proof. apply eq_ci_lower. Qed.

(** X23.  The configured level is read without regard to case: each of the
    five level names, in any mix of upper and lower case, gives its level;
    so the name the logger prints for a level reads back as that level.
    Any other setting, an absent one too, gives [INFO]. *)
Theorem getLogLevelFromConfig_reads_names :
  (forall level s,
      eq_ci s (AppLogLevel.nameOf level) ->
      Logger.getLogLevelFromConfig (Some s) = level)
  /\ (forall level,
        Logger.getLogLevelFromConfig (Some (AppLogLevel.nameOf level)) = level)
  /\ (forall s,
        (forall level, ~ eq_ci s (AppLogLevel.nameOf level)) ->
        Logger.getLogLevelFromConfig (Some s) = AppLogLevel.INFO)
  /\ Logger.getLogLevelFromConfig None = AppLogLevel.INFO.
Proof.
  split; [|split; [|split]].
  - intros level s Hs. apply lowered_name in Hs.
    unfold Logger.getLogLevelFromConfig. rewrite Hs. by destruct level.
  - by intros [].
  - intros s Hother. unfold Logger.getLogLevelFromConfig.
    repeat match goal with
           | |- context [String.eqb (toLowerCase s) ?name] =>
               destruct (String.eqb_spec (toLowerCase s) name) as [Heq | _]
           end; try done.
    + exfalso. apply (Hother AppLogLevel.DEBUG). by apply eq_ci_lower.
    + exfalso. apply (Hother AppLogLevel.WARN). by apply eq_ci_lower.
    + exfalso. apply (Hother AppLogLevel.ERROR). by apply eq_ci_lower.
    + exfalso. apply (Hother AppLogLevel.NONE). by apply eq_ci_lower.
  - done.
Qed.

(** X24.  A change of the configured level always takes effect, but the
    logger reports it only when the new level is [DEBUG] or [INFO]: the
    notice is an [INFO] line, which the levels above suppress.  A change
    that does not concern the level leaves the logger as it is. *)
Theorem configuration_change_notice {any : Type} (stringify : any -> string)
    configured timestamp self :
  let level := Logger.getLogLevelFromConfig configured in
  let self' := Logger.onConfigurationChanged stringify true configured timestamp self in
  Logger.logLevel self' = level
  /\ Logger.outputChannel self'
     = Logger.outputChannel self
       ++ (if (AppLogLevel.value level <=? AppLogLevel.value AppLogLevel.INFO)%Z
           then [timestamp +:+ " [INFO] Log level changed to: " +:+ AppLogLevel.nameOf level]
           else [])
  /\ Logger.onConfigurationChanged stringify false configured timestamp self = self.
Proof.
  cbv zeta. unfold Logger.onConfigurationChanged, Logger.info.
  cbn [Logger.logLevel Logger.outputChannel].
  destruct (AppLogLevel.value (Logger.getLogLevelFromConfig configured)
            <=? AppLogLevel.value AppLogLevel.INFO)%Z.
  - unfold Logger.log, Logger.appendLine. cbn. repeat split; reflexivity.
  - cbn. by rewrite app_nil_r.
Qed.

End LoggerConfiguration.

Lemma locator_never_throws_witness :
  @findSolutionOrProjectDirectory Posix.platform Demo.bare 2 "/ws" <> Throws (ENOENT "/ws").
Proof. apply (@locator_never_throws Posix.platform Demo.bare 2 "/ws" (ENOENT "/ws")). Defined.

Lemma changeNamespaces_rewrites_both_files_witness :
  exists w',
    @changeNamespaces Posix.platform Posix.editor 1
      (namespaceArgs Window "/ws/Views" "/ws" "Foo") Samples.project
    = Returns (tt, w')
    /\ fs.files w' !! "/ws/Views/Foo.axaml"
       = Some ("<Window x:Class=" +:+ dquote +:+ "App.Views.Foo" +:+ dquote +:+ ">")
    /\ fs.files w' !! "/ws/Views/Foo.axaml.cs"
       = Some ("namespace App.Views;" +:+ CRLF +:+ "class Foo {}").
Proof.
  eexists. split.
  - apply (@changeNamespaces_rewrites_both_files Posix.platform Posix.editor 1
             (namespaceArgs Window "/ws/Views" "/ws" "Foo") Samples.project
             {| xamlNameSpace := "App.Views.Foo"; csharpNameSpace := "App.Views" |}
             Samples.markupText Samples.codeText).
    + reflexivity.
    + vm_compute. reflexivity.
    + vm_compute. discriminate.
    + vm_compute. reflexivity.
    + vm_compute. reflexivity.
  - split; vm_compute; reflexivity.
Defined.

Lemma logger_threshold_witness :
  perform Samples.asIs "09:00" (CallInfo "created" [])
    {| Logger.outputChannel := ["earlier"]; Logger.logLevel := AppLogLevel.WARN |}
  = {| Logger.outputChannel := ["earlier"]; Logger.logLevel := AppLogLevel.WARN |}
  /\ perform Samples.asIs "09:00" (CallError "failed" (Some "at f") [])
       {| Logger.outputChannel := ["earlier"]; Logger.logLevel := AppLogLevel.NONE |}
     = {| Logger.outputChannel := ["earlier"]; Logger.logLevel := AppLogLevel.NONE |}.
Proof.
  split.
  - apply (proj1 (logger_threshold Samples.asIs "09:00" (CallInfo "created" [])
             {| Logger.outputChannel := ["earlier"]; Logger.logLevel := AppLogLevel.WARN |})).
    reflexivity.
  - apply (proj2 (proj2 (logger_threshold Samples.asIs "09:00"
             (CallError "failed" (Some "at f") [])
             {| Logger.outputChannel := ["earlier"]; Logger.logLevel := AppLogLevel.NONE |}))).
    reflexivity.
Defined.

Lemma logger_higher_level_logs_less_witness :
  Logger.outputChannel
    (performAll Samples.asIs Samples.run
       {| Logger.outputChannel := []; Logger.logLevel := AppLogLevel.WARN |})
  `sublist_of`
  Logger.outputChannel
    (performAll Samples.asIs Samples.run
       {| Logger.outputChannel := []; Logger.logLevel := AppLogLevel.DEBUG |}).
Proof.
  apply (logger_higher_level_logs_less Samples.asIs Samples.run []
           AppLogLevel.DEBUG AppLogLevel.WARN).
  vm_compute. discriminate.
Defined.

Lemma getLogLevelFromConfig_reads_names_witness :
  Logger.getLogLevelFromConfig (Some "WaRn") = AppLogLevel.WARN
  /\ Logger.getLogLevelFromConfig (Some "verbose") = AppLogLevel.INFO.
Proof.
  split.
  - apply (proj1 getLogLevelFromConfig_reads_names).
    apply CaseFacts.eq_ci_lower. reflexivity.
  - apply (proj1 (proj2 (proj2 getLogLevelFromConfig_reads_names))).
    intros level Heq. apply CaseFacts.eq_ci_lower in Heq.
    destruct level; vm_compute in Heq; discriminate.
Defined.

(* ===================================================================== *)
(** ** Where the root is, and the import line once more                  *)
(* ===================================================================== *)

Section MoreFacts.

Context `{path.Platform}.
Import JS JSFacts.

Lemma recursive_answer_below w fuel p r :
  findSolutionOrProjectRecursive w fuel p = Returns (Some r) -> below w p r.
Proof.
  revert p. induction fuel as [|fuel IHf]; intros p; [done |].
  rewrite recursive_unfold. unfold fs.readdirSync_withFileTypes.
  destruct (fs.dirs w !! p) as [items|] eqn:Hdir; [|done].
  assert (forall item, In item items -> In item items) as Hsub by done.
  revert Hsub. generalize items at 1 3 as todo.
  induction todo as [|item rest IH]; intros Hsub; [done |].
  assert (forall item', In item' rest -> In item' items) as Hrest
    by (intros item' Hin; apply Hsub; by right).
  destruct (fs.isDirectory item) eqn:Hisdir; [|by apply IH]. cbv zeta.
  assert (forall q, below w (path.join p (fs.name item)) q -> below w p q) as Hstep.
  { intros q. apply (below_entry w p items item q Hdir); [|done]. apply Hsub. by left. }
  destruct (containsSolutionOrProject w (path.join p (fs.name item))).
  { intros [= <-]. apply Hstep. constructor. }
  specialize (IHf (path.join p (fs.name item))).
  destruct (findSolutionOrProjectRecursive w fuel (path.join p (fs.name item)))
    as [[r'|]| |]; try done; [|by apply IH].
  destruct (truthy r'); [|by apply IH].
  intros [= <-]. by apply Hstep, IHf.
Qed.

(** X25.  The root the locator returns is the start directory or lies
    below it: it is reached from the start directory through directory
    entries of the listings on the way. *)
Theorem locator_answer_is_below_start w fuel startDir r :
  findSolutionOrProjectDirectory w fuel startDir = Returns (Some r) ->
  below w startDir r.
Proof.
  unfold findSolutionOrProjectDirectory.
  destruct (containsSolutionOrProject w startDir).
  - intros [= <-]. constructor.
  - apply recursive_answer_below.
Qed.

(** One run of the import step on a text that holds [namespace ]. *)
Lemma withUsing_once base own content :
  base <> EmptyString -> own <> EmptyString -> base <> own ->
  occurs "namespace " content ->
  exists pre post,
    content = pre +:+ "namespace " +:+ post
    /\ withUsing (Some base) (Some own) content
       = pre +:+ usingStatement base +:+ "namespace " +:+ post.
Proof.
  intros Hbase Hown Hdiff Hocc.
  destruct (occurs_first _ _ Hocc) as (pre & post & Hfirst).
  exists pre, post. split; [by destruct Hfirst |].
  unfold withUsing.
  apply truthy_true in Hbase, Hown. rewrite Hbase, Hown.
  apply String.eqb_neq in Hdiff. rewrite Hdiff. cbn [negb andb].
  rewrite (indexOf_first_occurrence _ _ _ _ Hfirst). destruct Hfirst as [-> _].
  replace (Z.of_nat (String.length pre) =? -1)%Z with false
    by (symmetry; apply Z.eqb_neq; lia).
  cbn [negb].
  rewrite substring_from_0, substringFrom_of_nat by (rewrite length_append; lia).
  rewrite take_app, drop_app. unfold usingStatement. by rewrite !append_assoc.
Qed.

(** X26.  The import step is not idempotent.  With two known, different
    namespaces, on a text that holds [namespace ], every run puts one more
    import line into the text: a second run makes the text longer by the
    length of the line once more, so that it never gives back the text of
    the first run. *)
Theorem withUsing_adds_a_line_each_run base own content :
  base <> EmptyString -> own <> EmptyString -> base <> own ->
  occurs "namespace " content ->
  let once := withUsing (Some base) (Some own) content in
  let twice := withUsing (Some base) (Some own) once in
  String.length once = String.length content + String.length (usingStatement base)
  /\ String.length twice = String.length once + String.length (usingStatement base)
  /\ twice <> once.
Proof.
  intros Hbase Hown Hdiff Hocc once twice.
  destruct (withUsing_once base own content Hbase Hown Hdiff Hocc)
    as (pre & post & Hcontent & Honce).
  assert (occurs "namespace " once) as Hocc'.
  { exists (pre +:+ usingStatement base), post. subst once.
    by rewrite Honce, !append_assoc. }
  destruct (withUsing_once base own once Hbase Hown Hdiff Hocc')
    as (pre' & post' & Honce' & Htwice).
  assert (String.length once = String.length content + String.length (usingStatement base))
    as Hlen1.
  { subst once. rewrite Honce, Hcontent, !length_append. lia. }
  assert (String.length twice = String.length once + String.length (usingStatement base))
    as Hlen2.
  { subst twice. rewrite Htwice. rewrite Honce' at 1. rewrite !length_append. lia. }
  split; [done |]. split; [done |].
  intros Heq. rewrite Heq in Hlen2. unfold usingStatement in Hlen2.
  rewrite !length_append in Hlen2. simpl in Hlen2. lia.
Qed.

End MoreFacts.

Lemma locator_answer_is_below_start_witness :
  @below Posix.platform Demo.workspace "/ws" "/ws/src/App".
Proof.
  apply (@locator_answer_is_below_start Posix.platform Demo.workspace 4 "/ws" "/ws/src/App").
  vm_compute. reflexivity.
Defined.

Lemma withUsing_adds_a_line_each_run_witness :
  withUsing (Some "App.ViewModels") (Some "App.ViewModels.Pages")
    (withUsing (Some "App.ViewModels") (Some "App.ViewModels.Pages")
       ("namespace App.ViewModels.Pages;" +:+ CRLF))
  <> withUsing (Some "App.ViewModels") (Some "App.ViewModels.Pages")
       ("namespace App.ViewModels.Pages;" +:+ CRLF).
Proof.
  apply (withUsing_adds_a_line_each_run "App.ViewModels" "App.ViewModels.Pages"
           ("namespace App.ViewModels.Pages;" +:+ CRLF)).
  - discriminate.
  - discriminate.
  - discriminate.
  - exists EmptyString, ("App.ViewModels.Pages;" +:+ CRLF). reflexivity.
Defined.

(* ===================================================================== *)
(** ** The two namespaces agree                                          *)
(* ===================================================================== *)

Section Agreement.

Context `{path.Platform}.
Import JS JSFacts.
#[local] Arguments String.append !_ _ / : simpl nomatch.

(** A text is cut at its last dot in one way only. *)
Lemma last_dot_unique a x b y :
  a +:+ "." +:+ x = b +:+ "." +:+ y ->
  ~ occurs "." x -> ~ occurs "." y ->
  a = b /\ x = y.
Proof.
  revert b. induction a as [|c a IH]; intros [|d b] Heq Hx Hy; simpl in Heq.
  - by injection Heq as ->.
  - injection Heq as <- ->. exfalso. apply Hx. by exists b, y.
  - injection Heq as -> <-. exfalso. apply Hy. by exists a, x.
  - injection Heq as -> Heq. destruct (IH b Heq Hx Hy) as [-> ->]. done.
Qed.

(** X27.  The markup class and the code namespace fit together.  For an
    entity name without a dot, the full namespace that [findNameSpaces]
    returns is the code namespace, a dot, and the entity name; the one
    exception is a full namespace that is the bare entity name (a solution
    root, or a root without project name, as target), where both namespaces
    are the entity name. *)
Theorem namespaces_agree w fuel createPath projectPath fileName namespaces :
  findNameSpaces w fuel createPath projectPath fileName = Returns namespaces ->
  ~ occurs "." fileName ->
  xamlNameSpace namespaces = csharpNameSpace namespaces +:+ "." +:+ fileName
  \/ (xamlNameSpace namespaces = fileName /\ csharpNameSpace namespaces = fileName).
Proof.
  unfold findNameSpaces.
  destruct (findSolutionOrProjectDirectory w fuel projectPath) as [[solutionDir|]| |];
    try done.
  destruct (truthy solutionDir); [|done].
  destruct (analyzeSolutionDirectory w solutionDir) as [[isSolutionDir projectName]| |];
    try done.
  assert (constructNamespace createPath solutionDir fileName isSolutionDir projectName
          = fileName
          \/ exists front,
               constructNamespace createPath solutionDir fileName isSolutionDir projectName
               = front +:+ "." +:+ fileName) as Hshape.
  { rewrite constructNamespace_from_segments. cbv zeta.
    destruct (negb isSolutionDir && truthy projectName);
      destruct (segments (path.relative solutionDir createPath)) as [|part parts].
    - right. by exists projectName.
    - right. exists (projectName +:+ "." +:+ join (part :: parts) ".").
      by rewrite !append_assoc.
    - by left.
    - right. by exists (join (part :: parts) "."). }
  set (namespace :=
         constructNamespace createPath solutionDir fileName isSolutionDir projectName) in *.
  destruct (truthy namespace); [|done].
  intros [= <-] Hname. cbn [xamlNameSpace csharpNameSpace].
  destruct Hshape as [Hbare | [front Hfull]].
  - right. split; [done |].
    destruct (includes namespace ".") eqn:Hinc; [|done].
    apply includes_true in Hinc as (a & b & Hdot). exfalso. apply Hname.
    exists a, b. by rewrite <- Hbare.
  - left.
    assert (occurs "." namespace) as Hdot by (exists front, fileName; done).
    assert (includes namespace "." = true) as -> by (by apply includes_true).
    destruct (truncate_at_last_dot namespace Hdot) as (front' & last & Hns & Hlast & ->).
    rewrite Hfull in Hns. destruct (last_dot_unique _ _ _ _ Hns Hname Hlast) as [<- <-].
    done.
Qed.

End Agreement.

Lemma namespaces_agree_witness :
  "App.Views.Foo" = "App.Views" +:+ "." +:+ "Foo"
  \/ ("App.Views.Foo" = "Foo" /\ "App.Views" = "Foo").
Proof.
  apply (@namespaces_agree Posix.platform Demo.workspace 4 "/ws/src/App/Views" "/ws" "Foo"
           {| xamlNameSpace := "App.Views.Foo"; csharpNameSpace := "App.Views" |}).
  - vm_compute. reflexivity.
  - intros Hocc. apply JSFacts.includes_true in Hocc. vm_compute in Hocc. discriminate.
Defined.

(* ===================================================================== *)
(** ** What reaches the markup file                                      *)
(* ===================================================================== *)

Section MarkupFile.

Context `{path.Platform} `{vscode.Editor}.
Import JS JSFacts.

(** The run of [changeNamespaces] up to the point where the markup file
    has been written: the editor and the code-behind call come after. *)
Lemma changeNamespaces_markup fuel args w namespaces markup pre mid post :
  findNameSpaces w fuel (ChangeNamespaceArgs.createPath args)
    (ChangeNamespaceArgs.projectPath args) (ChangeNamespaceArgs.fileName args)
  = Returns namespaces ->
  fs.files w !! ChangeFileContentArgs.filePath (frontendCall args namespaces) = Some markup ->
  first_occurrence (ChangeNamespaceArgs.frontendModifiedStartContent args) markup pre
    (mid +:+ ChangeNamespaceArgs.frontendModifiedEndContent args +:+ post) ->
  first_occurrence (ChangeNamespaceArgs.frontendModifiedEndContent args)
    (mid +:+ ChangeNamespaceArgs.frontendModifiedEndContent args +:+ post) mid post ->
  changeNamespaces fuel args w
  = bind (openTextDocument (ChangeFileContentArgs.filePath (frontendCall args namespaces)))
         (fun _ => changeFileContent (backendCall args namespaces))
         (fs.writeFileSync (ChangeFileContentArgs.filePath (frontendCall args namespaces))
            (pre +:+ ChangeNamespaceArgs.frontendModifiedStartContent args
                 +:+ namespaceToUse (frontendCall args namespaces)
                 +:+ ChangeNamespaceArgs.frontendModifiedEndContent args +:+ post) w).
Proof.
  intros Hns Hfile Hstart Hend.
  unfold changeNamespaces. unfold bind at 1, liftR. rewrite Hns.
  unfold bind at 1. unfold changeFileContent at 1. unfold bind at 1, liftR, fs.readFileSync.
  rewrite Hfile. unfold bind at 1.
  rewrite (modifiedData_region (frontendCall args namespaces) markup pre mid post Hstart Hend).
  done.
Qed.

(** C8.  What [updateTemplateNamespaces] writes into the markup file.  Let
    [findNameSpaces] return the two namespaces and let the markup file hold
    its markers.  For a templated control the markers are
    [xmlns:controls=] + quote + [using:] and quote + [>], and the file is
    written back with the code namespace between them; for every other
    template type the markers are [x:Class=] + quote and a quote, and the
    file is written back with the full namespace between them.  The editor
    is asked to show the file, and the code-behind file is dealt with, on
    the disk that holds this text. *)
Theorem markup_file_receives_namespace
    fuel templateType createPath projectPath fileName w namespaces markup pre mid post :
  findNameSpaces w fuel createPath projectPath fileName = Returns namespaces ->
  fs.files w !! path.join createPath (fileName +:+ ".axaml") = Some markup ->
  (templateType = TemplatedControl ->
   first_occurrence ("xmlns:controls=" +:+ dquote +:+ "using:") markup pre
     (mid +:+ (dquote +:+ ">") +:+ post) ->
   first_occurrence (dquote +:+ ">") (mid +:+ (dquote +:+ ">") +:+ post) mid post ->
   updateTemplateNamespaces fuel templateType createPath projectPath fileName w
   = bind (openTextDocument (path.join createPath (fileName +:+ ".axaml")))
          (fun _ =>
             changeFileContent
               (backendCall (namespaceArgs templateType createPath projectPath fileName)
                            namespaces))
          (fs.writeFileSync (path.join createPath (fileName +:+ ".axaml"))
             (pre +:+ ("xmlns:controls=" +:+ dquote +:+ "using:")
                  +:+ csharpNameSpace namespaces
                  +:+ (dquote +:+ ">") +:+ post) w))
  /\ (templateType <> TemplatedControl ->
      first_occurrence ("x:Class=" +:+ dquote) markup pre (mid +:+ dquote +:+ post) ->
      first_occurrence dquote (mid +:+ dquote +:+ post) mid post ->
      updateTemplateNamespaces fuel templateType createPath projectPath fileName w
      = bind (openTextDocument (path.join createPath (fileName +:+ ".axaml")))
             (fun _ =>
                changeFileContent
                  (backendCall (namespaceArgs templateType createPath projectPath fileName)
                               namespaces))
             (fs.writeFileSync (path.join createPath (fileName +:+ ".axaml"))
                (pre +:+ ("x:Class=" +:+ dquote)
                     +:+ xamlNameSpace namespaces
                     +:+ dquote +:+ post) w)).
Proof.
  intros Hns Hfile.
  pose proof (markup_namespace_by_template_type templateType createPath projectPath
                fileName namespaces) as (Hpath & Hcontrol & Hother).
  cbv zeta in Hpath, Hcontrol, Hother.
  set (args := namespaceArgs templateType createPath projectPath fileName) in *.
  split.
  - intros Ht Hstart Hend. destruct (Hcontrol Ht) as (Huse & HS & HE).
    unfold updateTemplateNamespaces. fold args.
    cbn [frontendCall ChangeFileContentArgs.startContent ChangeFileContentArgs.endContent]
      in HS, HE.
    rewrite <- HS, <- HE in Hstart. rewrite <- HE in Hend.
    rewrite <- HS, <- HE, <- Huse, <- Hpath.
    apply (changeNamespaces_markup fuel args w namespaces markup pre mid post);
      [done | by rewrite Hpath | done | done].
  - intros Ht Hstart Hend. destruct (Hother Ht) as (Huse & HS & HE).
    unfold updateTemplateNamespaces. fold args.
    cbn [frontendCall ChangeFileContentArgs.startContent ChangeFileContentArgs.endContent]
      in HS, HE.
    rewrite <- HS, <- HE in Hstart. rewrite <- HE in Hend.
    rewrite <- HS, <- HE, <- Huse, <- Hpath.
    apply (changeNamespaces_markup fuel args w namespaces markup pre mid post);
      [done | by rewrite Hpath | done | done].
Qed.

End MarkupFile.


(** The templated control and the window of the sample projects, run to
    the end with the sample editor: the markup files on the resulting
    disks. *)
Lemma markup_file_receives_namespace_witness :
  (exists w',
      @updateTemplateNamespaces Posix.platform Posix.editor 2 TemplatedControl
        "/ws/Controls" "/ws" "Dial" Samples.control = Returns (tt, w')
      /\ fs.files w' !! "/ws/Controls/Dial.axaml"
         = Some ("<Styles xmlns:controls=" +:+ dquote +:+ "using:App.Controls"
                   +:+ dquote +:+ ">"))
  /\ (exists w',
      @updateTemplateNamespaces Posix.platform Posix.editor 2 Window
        "/ws/Views" "/ws" "Foo" Samples.project = Returns (tt, w')
      /\ fs.files w' !! "/ws/Views/Foo.axaml"
         = Some ("<Window x:Class=" +:+ dquote +:+ "App.Views.Foo" +:+ dquote +:+ ">")).
Proof.
  split.
  - rewrite (proj1 (@markup_file_receives_namespace Posix.platform Posix.editor
               2 TemplatedControl "/ws/Controls" "/ws" "Dial" Samples.control
               {| xamlNameSpace := "App.Controls.Dial"; csharpNameSpace := "App.Controls" |}
               Samples.controlMarkup "<Styles " "Old" EmptyString eq_refl eq_refl)
             eq_refl
             ltac:(apply first_occurrence_search; vm_compute; reflexivity)
             ltac:(apply first_occurrence_search; vm_compute; reflexivity)).
    eexists. split; vm_compute; reflexivity.
  - rewrite (proj2 (@markup_file_receives_namespace Posix.platform Posix.editor
               2 Window "/ws/Views" "/ws" "Foo" Samples.project
               {| xamlNameSpace := "App.Views.Foo"; csharpNameSpace := "App.Views" |}
               Samples.markupText "<Window " "Old.Foo" ">" eq_refl eq_refl)
             ltac:(discriminate)
             ltac:(apply first_occurrence_search; vm_compute; reflexivity)
             ltac:(apply first_occurrence_search; vm_compute; reflexivity)).
    eexists. split; vm_compute; reflexivity.
Defined.

(* ===================================================================== *)
(** ** Mirroring outside ASCII                                           *)
(* ===================================================================== *)

(** The host with the dotted capital I is right on ASCII text. *)
Lemma withDottedI_agreesOnAscii : Unicode.agreesOnAscii Unicode.withDottedI.
Proof.
  intros s. cbn [Unicode.toLowerCase Unicode.withDottedI].
  induction s as [|c s IH]; [done |].
  cbn [Unicode.isAsciiText Unicode.lowerUnits JS.toLowerCase].
  intros [Hc Hs]%andb_prop. rewrite (IH Hs). unfold Unicode.lowerUnit.
  destruct (Ascii.eqb_spec c Unicode.dottedCapitalI) as [-> | _]; [discriminate | done].
Qed.

(** C10 (what the code does).  [createViewModel] looks for [\views] in the
    lowered path and cuts the path itself at the index found there.  On
    the Windows path [C:\II\Views\Sub], with two capital dotted I for the
    two I, the lowered path is two code units longer in front of
    [\views]: the first occurrence of [\Views] starts at index 5 of the
    path and at index 7 of the lowered path.  The path is cut at 7: the
    base is [C:\II\V], what follows [Views] is [ub], and the view model
    goes to [C:\II\V\ViewModels\ub], not to [C:\II\ViewModels\Sub]. *)
Theorem viewModelLocation_cuts_at_lowered_index :
  let pre := "C:\" +:+ Samples.dotted in
  Samples.dottedPath = pre +:+ "\Views" +:+ "\Sub"
  /\ eq_ci "\Views" "\views"
  /\ (forall i, occurs_ci_at "\views" Samples.dottedPath i -> String.length pre <= i)
  /\ JS.indexOf (@Unicode.toLowerCase Unicode.withDottedI Samples.dottedPath) "\views" 0
     = (Z.of_nat (String.length pre) + 2)%Z
  /\ @viewModelLocation Win32.platform Unicode.withDottedI Samples.dottedPath
     = (pre +:+ "\V\ViewModels\ub", pre +:+ "\V\ViewModels")
  /\ @viewModelLocation Win32.platform Unicode.withDottedI Samples.dottedPath
     <> (@path.join Win32.platform (@path.join Win32.platform pre "ViewModels") "\Sub",
         @path.join Win32.platform pre "ViewModels").
Proof.
  cbv zeta. split; [reflexivity |]. split; [apply CaseFacts.eq_ci_lower; reflexivity |].
  split; [|split; [reflexivity |split; [vm_compute; reflexivity |]]].
  - intros i Hi. apply CaseFacts.occurs_ci_at_lower in Hi.
    assert (JS.search "\views" (JS.toLowerCase Samples.dottedPath) = Some 5) as Hfirst
      by reflexivity.
    apply JSFacts.search_found in Hfirst as [_ Hmin]. apply (Hmin i Hi).
  - vm_compute. discriminate.
Qed.
